(** * The list-item handler of hast-util-to-mdast ([lib/handlers/li.js])

    A shallow embedding of [li], [spreadout] and [extractLeadingCheckbox]
    over an explicit object store, and the properties of the handler that
    the specification states.

    JavaScript objects live in a heap and are named by their location, so
    that "the same object" (reference identity), "a new object" and "an
    object is not written to" are statements about locations.  The three
    functions are written in a state-and-exception monad over that heap: a
    call returns, throws a [TypeError], or runs out of the [fuel] that
    bounds the descent of [extractLeadingCheckbox] and the recursion of
    [spreadout] (both follow [children], which a heap may make cyclic; the
    bound is never reached on a tree lower than the fuel).

    The file has the values and the heap, the monad, the three functions,
    the notions the specification is stated with, sample trees, and then the
    lemmas and the properties C1 to C10. *)

From stdpp Require Import gmap strings list fin_maps.
From Stdlib Require Import ZArith NArith Ascii.


(* ===================================================================== *)
(** * Values, objects and the heap *)
(* ===================================================================== *)

(** A JavaScript string is a sequence of UTF-16 code units. *)
Definition jsstring := list N.

(** A string literal of the source (the literals of li.js are ASCII). *)
Definition js (s : string) : jsstring :=
  (fun c => N_of_ascii c) <$> String.list_ascii_of_string s.

Definition loc := positive.

(** Values.  Numbers occur only as property values whose truthiness may be
    read; they are modelled by their integer values ([NaN], which is falsy
    like 0, and fractions are left out). *)
Inductive val :=
| VUndef
| VNull
| VBool (b : bool)
| VNum (n : Z)
| VStr (s : jsstring)
| VRef (l : loc).

(** A heap object is a plain object (a hast node, a property bag, the
    result of an object spread) or an array. *)
Inductive obj :=
| OObject (fields : gmap jsstring val)
| OArray (elems : list val).

Abbreviation heap := (gmap loc obj).

Global Instance val_eq_dec : EqDecision val.
Proof. solve_decision. Defined.

Global Instance obj_eq_dec : EqDecision obj.
Proof. solve_decision. Defined.

(** The property names and string constants li.js mentions. *)
Definition f_children : jsstring := js "children".
Definition f_type : jsstring := js "type".
Definition f_tagName : jsstring := js "tagName".
Definition f_properties : jsstring := js "properties".
Definition f_checked : jsstring := js "checked".
Definition f_value : jsstring := js "value".
Definition f_spread : jsstring := js "spread".
Definition f_length : jsstring := js "length".
Definition f_0 : jsstring := js "0".

(** [Boolean(v)], also the test of [if (v)], [v && ...] and [while (v)]. *)
Definition truthy (v : val) : bool :=
  match v with
  | VUndef | VNull => false
  | VBool b => b
  | VNum n => negb (n =? 0)%Z
  | VStr s => match s with [] => false | _ => true end
  | VRef _ => true
  end.

(** [v === 'literal'] *)
Definition is_str (v : val) (s : string) : bool := bool_decide (v = VStr (js s)).

(** The own properties of the object at [l].  An array has none of the named
    properties li.js reads ([children], [type], [tagName], [properties],
    [checked], [value]); its entries are read with [index0] and as [OArray]. *)
Definition own_fields (h : heap) (l : loc) : gmap jsstring val :=
  match h !! l with
  | Some (OObject m) => m
  | _ => ∅
  end.

(** [v.k] for a [v] that is neither [undefined] nor [null], and a [k] among
    the names above: a missing property reads as [undefined], and so does
    every such property of a primitive. *)
Definition member (h : heap) (v : val) (k : jsstring) : val :=
  match v with
  | VRef l => default VUndef (own_fields h l !! k)
  | _ => VUndef
  end.

(** [v[0]] for a [v] that is neither [undefined] nor [null]. *)
Definition index0 (h : heap) (v : val) : val :=
  match v with
  | VRef l =>
      match h !! l with
      | Some (OArray es) => default VUndef (head es)
      | Some (OObject m) => default VUndef (m !! f_0)
      | None => VUndef
      end
  | VStr (c :: _) => VStr [c]
  | _ => VUndef
  end.

(* ===================================================================== *)
(** * The monad: a state is threaded, a [TypeError] may be thrown *)
(* ===================================================================== *)

(** The state [S] is the heap for [spreadout] and [extractLeadingCheckbox],
    and the heap with the log of calls to [state] for [li]. *)
Inductive outcome (S A : Type) :=
| Ret (a : A) (s : S)   (* normal completion *)
| Throw (s : S)         (* a TypeError was thrown *)
| OutOfFuel             (* the iteration bound of the model was hit *)
| Unmodelled.           (* the heap is outside the modelled data *)
Arguments Ret {S A} a s.
Arguments Throw {S A} s.
Arguments OutOfFuel {S A}.
Arguments Unmodelled {S A}.

Definition ST (S A : Type) : Type := S → outcome S A.

Definition ret {S A} (a : A) : ST S A := fun s => Ret a s.
Definition bind {S A B} (m : ST S A) (k : A → ST S B) : ST S B :=
  fun s =>
    match m s with
    | Ret a s' => k a s'
    | Throw s' => Throw s'
    | OutOfFuel => OutOfFuel
    | Unmodelled => Unmodelled
    end.

Notation "'let*' x ':=' m 'in' k" := (bind m (fun x => k))
  (at level 10, x pattern, m at level 100, k at level 200, only parsing).
Notation "'do*' m 'in' k" := (bind m (fun _ => k))
  (at level 10, m at level 100, k at level 200, only parsing).

Abbreviation M := (ST heap).

(** [v.k] in a position where [v] may be [undefined] or [null]. *)
Definition get (v : val) (k : jsstring) : M val :=
  fun h =>
    match v with
    | VUndef | VNull => Throw h
    | _ => Ret (member h v k) h
    end.

(** A new object; its location is one the heap does not use. *)
Definition alloc (o : obj) : M loc :=
  fun h => let l := fresh (dom h) in Ret l (<[l := o]> h).

(** [v.slice(1)]: a new array for an array, a string for a string; nothing
    else has a [slice] method. *)
Definition slice1 (v : val) : M val :=
  fun h =>
    match v with
    | VRef l =>
        match h !! l with
        | Some (OArray es) => (let* a := alloc (OArray (tail es)) in ret (VRef a)) h
        | _ => Throw h
        end
    | VStr s => Ret (VStr (tail s)) h
    | _ => Throw h
    end.

(** [children.unshift(x)]: only arrays have it. *)
Definition unshift (children : val) (x : val) : M unit :=
  fun h =>
    match children with
    | VRef l =>
        match h !! l with
        | Some (OArray es) => Ret tt (<[l := OArray (x :: es)]> h)
        | _ => Throw h
        end
    | _ => Throw h
    end.

(** [children.shift()]: only arrays have it. *)
Definition shift (children : val) : M unit :=
  fun h =>
    match children with
    | VRef l =>
        match h !! l with
        | Some (OArray es) => Ret tt (<[l := OArray (tail es)]> h)
        | _ => Throw h
        end
    | _ => Throw h
    end.

(** [children[0] = x].  Module code is strict: writing to an index of a
    primitive throws. *)
Definition set0 (children : val) (x : val) : M unit :=
  fun h =>
    match children with
    | VRef l =>
        match h !! l with
        | Some (OArray es) => Ret tt (<[l := OArray (x :: tail es)]> h)
        | Some (OObject m) => Ret tt (<[l := OObject (<[f_0 := x]> m)]> h)
        | None => Throw h
        end
    | _ => Throw h
    end.

(** The white space and line terminator code units that [trimStart] strips. *)
Definition is_white_space (c : N) : bool :=
  bool_decide (c ∈ [9; 10; 11; 12; 13; 32; 160; 5760; 8192; 8193; 8194; 8195;
                    8196; 8197; 8198; 8199; 8200; 8201; 8202; 8232; 8233;
                    8239; 8287; 12288; 65279]%N).

Fixpoint trim_start (s : jsstring) : jsstring :=
  match s with
  | c :: s' => if is_white_space c then trim_start s' else s
  | [] => []
  end.

(** [v.trimStart()]: only strings have it. *)
Definition trimStart (v : val) : M jsstring :=
  fun h =>
    match v with
    | VStr s => Ret (trim_start s) h
    | _ => Throw h
    end.

(** [{...x, k: v}] for an object [x].  li.js spreads [children[0]] once its
    [type] is ['text'] and a [parent] whose [children] is truthy: plain
    objects (lemma [member_is_object]); for [undefined], [null], a boolean
    or a number the spread has no property but [k]. *)
Definition spread_with (x : val) (k : jsstring) (v : val) : M loc :=
  fun h =>
    match x with
    | VRef l => alloc (OObject (<[k := v]> (own_fields h l))) h
    | _ => alloc (OObject {[k := v]}) h
    end.

(* ===================================================================== *)
(** * li.js *)
(* ===================================================================== *)

Section Handler.

(** [phrasing] of hast-util-phrasing, an external package: the handler only
    consumes its boolean answer. *)
Variable phrasing : heap → val → bool.

(** The test of the first branch of the loop (lines 92-98). *)
Definition is_checkbox (h : heap) (candidate : val) : bool :=
  truthy candidate &&
  is_str (member h candidate f_type) "element" &&
  is_str (member h candidate f_tagName) "input" &&
  truthy (member h candidate f_properties) &&
  (is_str (member h (member h candidate f_properties) f_type) "checkbox" ||
   is_str (member h (member h candidate f_properties) f_type) "radio").

(** The test of the second branch (lines 125-133). *)
Definition is_wrapper (h : heap) (candidate : val) : bool :=
  truthy candidate &&
  is_str (member h candidate f_type) "element" &&
  (is_str (member h candidate f_tagName) "p" || phrasing h candidate).

(** The text clean-up of lines 108-116, on the sliced [children]. *)
Definition clean_leading_text (children : val) : M unit :=
  let* c0 := (fun h => Ret (index0 h children) h) in
  let* ty := get c0 f_type in
  if is_str ty "text" then
    let* v := get c0 f_value in
    let* newValue := trimStart v in
    if truthy (VStr newValue) then
      let* t := spread_with c0 f_value (VStr newValue) in
      set0 children (VRef t)
    else shift children
  else ret tt.

(** The [for (const parent of parents)] loop of lines 104-122; [clone] is
    the variable of that name. *)
Fixpoint rebuild (node : loc) (parents : list loc) (clone : loc) : M loc :=
  match parents with
  | [] => ret clone
  | parent :: rest =>
      let* children := (fun h => slice1 (member h (VRef parent) f_children) h) in
      do* (if bool_decide (clone ≠ node) then unshift children (VRef clone)
           else clean_leading_text children) in
      let* clone' := spread_with (VRef parent) f_children children in
      rebuild node rest clone'
  end.

(** The [while] loop of lines 90-139.  The array [parents] is local to the
    call and is a list here; [parents.unshift(candidate)] is a cons.  It is
    never empty ([parents[0]] of an empty array is [undefined], whose
    [children] cannot be read), and a candidate that passes the test of the
    second branch is an object (lemma [is_wrapper_ref]), so that the branch
    for another value is there for the match to be complete. *)
Fixpoint descend (fuel : nat) (node : loc) (parents : list loc)
    : M (val * loc) :=
  fun h =>
    match fuel with
    | O => OutOfFuel
    | S fuel =>
        match parents with
        | [] => Throw h
        | p0 :: _ =>
            if truthy (member h (VRef p0) f_children) then
              let candidate := index0 h (member h (VRef p0) f_children) in
              if is_checkbox h candidate then
                let checked :=
                  VBool (truthy (member h (member h candidate f_properties)
                                        f_checked)) in
                (let* clone := rebuild node parents node in ret (checked, clone)) h
              else if is_wrapper h candidate then
                match candidate with
                | VRef c => descend fuel node (c :: parents) h
                | _ => Ret (VNull, node) h
                end
              else Ret (VNull, node) h
            else Ret (VNull, node) h
        end
    end.

(** [extractLeadingCheckbox(node)]: the pair is the returned
    [{checked, clone}]. *)
Definition extractLeadingCheckbox (fuel : nat) (node : loc) : M (val * loc) :=
  descend fuel node [node].

(** The body of the loop of [spreadout] for one [child] (lines 58-68), given
    the recursive call: [Some b] is [return b], [None] is falling through to
    the next iteration with the new [seenFlow]. *)
Definition spread_step (rec : val → M bool) (child : val) (seenFlow : bool)
    : M (option bool * bool) :=
  let* ty := get child f_type in
  if is_str ty "element" then
    let* ph := (fun h => Ret (phrasing h child) h) in
    if ph then ret (None, seenFlow)
    else
      let* tag := get child f_tagName in
      if is_str tag "p" || seenFlow then ret (Some true, seenFlow)
      else
        let* sub := rec child in
        if sub then ret (Some true, seenFlow) else ret (None, true)
  else ret (None, seenFlow).

(** The [while] loop of [spreadout] over the entries of [node.children]
    from [index] on. *)
Fixpoint spread_scan (rec : val → M bool) (children : list val)
    (seenFlow : bool) : M bool :=
  match children with
  | [] => ret false
  | child :: rest =>
      let* (answer, seenFlow') := spread_step rec child seenFlow in
      match answer with
      | Some b => ret b
      | None => spread_scan rec rest seenFlow'
      end
  end.

(** [spreadout(node)].  [node.children.length] throws when there is no
    [children]; a primitive [children] has no element among its entries; an
    object that is not an array is not modelled as [children].  The source
    reads [node.children] at every iteration and the model once: nothing in
    the loop writes to the heap (lemma [spreadout_heap]). *)
Fixpoint spreadout (fuel : nat) (node : val) : M bool :=
  fun h =>
    match fuel with
    | O => OutOfFuel
    | S fuel =>
        match member h node f_children with
        | VUndef | VNull => Throw h
        | VRef a =>
            match h !! a with
            | Some (OArray es) => spread_scan (spreadout fuel) es false h
            | _ => Unmodelled
            end
        | _ => Ret false h
        end
    end.

End Handler.

(* ===================================================================== *)
(** * The handler [li] and the [state] it is given *)
(* ===================================================================== *)

(** The calls [li] makes to the methods of [state]. *)
Inductive call :=
| CallAll (parent : loc)
| CallToFlow (nodes : val)
| CallPatch (from to : loc).

Global Instance call_eq_dec : EqDecision call.
Proof. solve_decision. Defined.

(** [li] runs on the heap and the log of the calls made so far. *)
Abbreviation world := (heap * list call)%type.
Abbreviation L := (ST world).

(** A computation on the heap, run in a world. *)
Definition lift {A} (m : M A) : L A :=
  fun w =>
    match m w.1 with
    | Ret a h => Ret a (h, w.2)
    | Throw h => Throw (h, w.2)
    | OutOfFuel => OutOfFuel
    | Unmodelled => Unmodelled
    end.

Definition log (c : call) : L unit := fun w => Ret tt (w.1, w.2 ++ [c]).

(** The methods of [state] that [li] calls, taken as parameters (lib/state.js
    is not among the sources): what each does to the heap, and what it
    returns, is theirs. *)
Record State := {
  all : loc → M val;
  toFlow : val → M val;
  patch : loc → loc → M unit;
}.

Section Li.

Variable phrasing : heap → val → bool.
Variable state : State.

(** [{type: 'listItem', spread, checked, children}] *)
Definition listItem (spread : bool) (checked children : val) : obj :=
  OObject (<[f_type := VStr (js "listItem")]>
           (<[f_spread := VBool spread]>
            (<[f_checked := checked]>
             (<[f_children := children]> ∅)))).

(** [li(state, node)]; [fuel] bounds the loops of the two helpers. *)
Definition li (fuel : nat) (node : loc) : L loc :=
  let* (checked, clone) := lift (extractLeadingCheckbox phrasing fuel node) in
  let* spread := lift (spreadout phrasing fuel (VRef clone)) in
  let* nodes := (do* log (CallAll clone) in lift (all state clone)) in
  let* children := (do* log (CallToFlow nodes) in lift (toFlow state nodes)) in
  let* result := lift (alloc (listItem spread checked children)) in
  do* (do* log (CallPatch clone result) in lift (patch state clone result)) in
  ret result.

End Li.

(* ===================================================================== *)
(** * The notions the specification is stated with *)
(* ===================================================================== *)

(** [v] is an object whose [type] is ['element'] / ['text']. *)
Definition is_element (h : heap) (v : val) : bool :=
  is_str (member h v f_type) "element".
Definition is_text (h : heap) (v : val) : bool :=
  is_str (member h v f_type) "text".
Definition has_tag (h : heap) (v : val) (tag : string) : bool :=
  is_str (member h v f_tagName) tag.

(** The entries of the array [l.children], when it is one. *)
Definition children_of (h : heap) (l : loc) : option (list val) :=
  match member h (VRef l) f_children with
  | VRef a =>
      match h !! a with
      | Some (OArray es) => Some es
      | _ => None
      end
  | _ => None
  end.

(** Modelled from the spec: the nodes of hast (section 3, Data model; the
    type declarations of hast are not among the sources).  A hast node of
    height below [n] is an object of the heap; its [children], when it has
    any, is an array of nodes, and an element has one; its [properties],
    when it is an object, is in the heap; the [value] of a text is a
    string. *)
Fixpoint hast_node (n : nat) (h : heap) (v : val) : bool :=
  match n with
  | O => false
  | S n =>
      match v with
      | VRef l =>
          match h !! l with
          | Some (OObject m) =>
              match m !! f_children with
              | None => negb (is_element h v)
              | Some (VRef a) =>
                  match h !! a with
                  | Some (OArray es) => forallb (hast_node n h) es
                  | _ => false
                  end
              | Some _ => false
              end
              && match m !! f_properties with
                 | Some (VRef p) => bool_decide (is_Some (h !! p))
                 | _ => true
                 end
              && (if is_text h v
                  then match m !! f_value with Some (VStr _) => true | _ => false end
                  else true)
          | _ => false
          end
      | _ => false
      end
  end.

(** The first child of [p], as the loop of [extractLeadingCheckbox] reads
    it: [undefined] when there is none. *)
Definition first_child (h : heap) (p : loc) : val :=
  if truthy (member h (VRef p) f_children)
  then index0 h (member h (VRef p) f_children)
  else VUndef.

(** The element reached from [l] by [k] steps to the first child. *)
Fixpoint descendant_at (h : heap) (k : nat) (l : loc) : option loc :=
  match k with
  | O => Some l
  | S k =>
      match first_child h l with
      | VRef c => descendant_at h k c
      | _ => None
      end
  end.

Section Specification.

Variable phrasing : heap → val → bool.

(** The result of the first-child descent of section 4.1 of the
    specification: the control and the elements above it, innermost first;
    or none; or the descent is longer than [n] steps. *)
Inductive search :=
| Found (parents : list loc) (control : val)
| NotFound
| TooDeep.

Fixpoint leading_checkbox (n : nat) (h : heap) (p : loc) (above : list loc)
    : search :=
  match n with
  | O => TooDeep
  | S n =>
      let c := first_child h p in
      if is_checkbox h c then Found (p :: above) c
      else if is_wrapper phrasing h c then
        match c with
        | VRef w => leading_checkbox n h w (p :: above)
        | _ => NotFound
        end
      else NotFound
  end.

(** The descent continued at a value [c], the elements [above] it already
    passed: [c] is the checkbox, or a wrapper to descend into, or the
    descent ends.  One step of [leading_checkbox] is [search_from] at the
    first child. *)
Definition search_from (n : nat) (h : heap) (c : val) (above : list loc)
    : search :=
  if is_checkbox h c then Found above c
  else if is_wrapper phrasing h c then
    match c with
    | VRef w => leading_checkbox n h w above
    | _ => NotFound
    end
  else NotFound.

(** [on_spine h spine control]: [spine] runs from an element down its first
    children, through wrappers that are no checkbox, to the parent of the
    checkbox [control]. *)
Inductive on_spine (h : heap) : list loc → val → Prop :=
| on_spine_parent p control :
    first_child h p = control →
    is_checkbox h control = true →
    on_spine h [p] control
| on_spine_wrapper p w spine control :
    first_child h p = VRef w →
    is_checkbox h (VRef w) = false →
    is_wrapper phrasing h (VRef w) = true →
    on_spine h (w :: spine) control →
    on_spine h (p :: w :: spine) control.

(** The three cases of the specification in which an item is spread: a
    direct paragraph child, two or more direct flow children, or exactly one
    flow child that is spread itself (to a nesting of at most [n]). *)
Definition is_flow (h : heap) (c : val) : bool :=
  is_element h c && negb (phrasing h c).

Fixpoint spread_spec (n : nat) (h : heap) (l : loc) : bool :=
  match n with
  | O => false
  | S n =>
      let es := default [] (children_of h l) in
      existsb (fun c => is_element h c && has_tag h c "p") es
      || (2 <=? length (filter (fun c => is_flow h c = true) es))
      || match filter (fun c => is_flow h c = true) es with
         | [VRef c] => spread_spec n h c
         | _ => false
         end
  end.

(** Phrasing content: a text or a phrasing-classified element. *)
Definition is_phrasing_content (h : heap) (c : val) : bool :=
  is_text h c || (is_element h c && phrasing h c).

End Specification.

(** What follows the first child of [p], once a leading text that is only
    white space is dropped: the first child of the rebuilt [p] unless that is
    a trimmed text. *)
Definition after_first (h : heap) (p : loc) : val :=
  match children_of h p with
  | Some (_ :: t :: rest) =>
      if is_text h t then
        match member h t f_value with
        | VStr s => if bool_decide (trim_start s = []) then default VUndef (head rest) else t
        | _ => t
        end
      else t
  | _ => VUndef
  end.

(** The children of the rebuilt innermost parent, from what followed the
    checkbox ([after]) in the heap [h]: a leading text is replaced by a new
    text with the trimmed value, or dropped when nothing is left of it. *)
Inductive cleaned (h h' : heap) : list val → list val → Prop :=
| cleaned_trimmed t m s rest t' :
    h !! t = Some (OObject m) →
    m !! f_type = Some (VStr (js "text")) →
    m !! f_value = Some (VStr s) →
    trim_start s ≠ [] →
    h !! t' = None →
    h' !! t' = Some (OObject (<[f_value := VStr (trim_start s)]> m)) →
    cleaned h h' (VRef t :: rest) (VRef t' :: rest)
| cleaned_dropped t m s rest :
    h !! t = Some (OObject m) →
    m !! f_type = Some (VStr (js "text")) →
    m !! f_value = Some (VStr s) →
    trim_start s = [] →
    cleaned h h' (VRef t :: rest) rest
| cleaned_kept c rest :
    is_text h c = false →
    cleaned h h' (c :: rest) (c :: rest).

(** [rebuilt h h' spine q]: in [h'], [q] is the rebuilt copy of the first
    element of [spine] (the elements from the input down to the parent of
    the checkbox, all of the heap [h]).  Every copy and its [children] array
    are new; a copy has the properties of its original but [children]; its
    children are the copy of the next element of the spine (the checkbox
    gone and the text cleaned, for the last one) followed by the very values
    that follow the first child in the original. *)
Inductive rebuilt (h h' : heap) : list loc → loc → Prop :=
| rebuilt_innermost p es q a es' :
    children_of h p = Some es →
    cleaned h h' (tail es) es' →
    h !! q = None → h !! a = None →
    h' !! q = Some (OObject (<[f_children := VRef a]> (own_fields h p))) →
    h' !! a = Some (OArray es') →
    rebuilt h h' [p] q
| rebuilt_ancestor p w spine es q qw a :
    rebuilt h h' (w :: spine) qw →
    children_of h p = Some es →
    h !! q = None → h !! a = None →
    h' !! q = Some (OObject (<[f_children := VRef a]> (own_fields h p))) →
    h' !! a = Some (OArray (VRef qw :: tail es)) →
    rebuilt h h' (p :: w :: spine) q.

(** The iterations of the loop of [rebuild] with their heaps written out.

    [clean h a after]: the text clean-up on the new array [a] of [h], which
    holds [after]; the heap it leaves, or [None] for a [TypeError]. *)
Definition clean (h : heap) (a : loc) (after : list val) : option heap :=
  match after with
  | [] | VUndef :: _ | VNull :: _ => None
  | VRef l :: rest =>
      if is_text h (VRef l) then
        match member h (VRef l) f_value with
        | VStr s =>
            match trim_start s with
            | [] => Some (<[a := OArray rest]> h)
            | _ =>
                let t := fresh (dom h) in
                Some (<[a := OArray (VRef t :: rest)]>
                      (<[t := OObject (<[f_value := VStr (trim_start s)]>
                                       (own_fields h l))]> h))
            end
        | _ => None
        end
      else Some h
  | _ :: _ => Some h
  end.

(** The first iteration, on the parent of the checkbox. *)
Definition detach (parent : loc) : M loc :=
  fun h =>
    match children_of h parent with
    | Some es =>
        let a := fresh (dom h) in
        let h1 := <[a := OArray (tail es)]> h in
        match clean h1 a (tail es) with
        | Some h2 =>
            Ret (fresh (dom h2))
                (<[fresh (dom h2) := OObject (<[f_children := VRef a]>
                                              (own_fields h parent))]> h2)
        | None => Throw h1
        end
    | None => Throw h
    end.

(** A later iteration: the clone of the level below is put in front. *)
Definition link_clone (parent clone : loc) : M loc :=
  fun h =>
    match children_of h parent with
    | Some es =>
        let a := fresh (dom h) in
        let h1 := <[a := OArray (VRef clone :: tail es)]> h in
        Ret (fresh (dom h1))
            (<[fresh (dom h1) := OObject (<[f_children := VRef a]>
                                          (own_fields h parent))]> h1)
    | None => Throw h
    end.

(** When a checkbox is found, the loop of lines 104-122 throws in these
    cases and no other (theorem [extraction_throws_exactly]).

    [parent.children.slice(1)] needs an array. *)
Definition has_children_array (h : heap) (p : loc) : bool :=
  match children_of h p with
  | Some _ => true
  | None => false
  end.

(** Line 108 reads [children[0].type], and line 110 calls
    [children[0].value.trimStart()], on what follows the checkbox in its
    parent [p]: they throw when nothing follows it, or [undefined] or
    [null], or a text whose [value] is no string. *)
Definition clean_up_throws (h : heap) (p : loc) : bool :=
  match children_of h p with
  | Some (_ :: c :: _) =>
      match c with
      | VUndef | VNull => true
      | _ => is_text h c
             && match member h c f_value with
                | VStr _ => false
                | _ => true
                end
      end
  | _ => true
  end.

Definition extraction_throws (h : heap) (parents : list loc) : bool :=
  negb (forallb (has_children_array h) parents)
  || match parents with
     | p :: _ => clean_up_throws h p
     | [] => false
     end.

(** Structural equality of what [v1] is in [h1] and [v2] is in [h2], to a
    nesting of [n]: equal primitives, objects with the same properties,
    arrays with the same entries, each structurally equal. *)
Fixpoint deep_equal (n : nat) (h1 : heap) (v1 : val) (h2 : heap) (v2 : val)
    : bool :=
  match n with
  | O => false
  | S n =>
      match v1, v2 with
      | VRef l1, VRef l2 =>
          match h1 !! l1, h2 !! l2 with
          | Some (OObject m1), Some (OObject m2) =>
              bool_decide (dom m1 = dom m2)
              && forallb (fun kv => match m2 !! kv.1 with
                                    | Some w => deep_equal n h1 kv.2 h2 w
                                    | None => false
                                    end) (map_to_list m1)
          | Some (OArray es1), Some (OArray es2) =>
              bool_decide (length es1 = length es2)
              && forallb (fun vw => deep_equal n h1 vw.1 h2 vw.2) (zip es1 es2)
          | _, _ => false
          end
      | VRef _, _ | _, VRef _ => false
      | _, _ => bool_decide (v1 = v2)
      end
  end.

(* ===================================================================== *)
(** * Sample trees *)
(* ===================================================================== *)

(** The objects of the examples, and heaps that hold them at 1, 2, ... *)
Definition element (tag : string) (props children : loc) : obj :=
  OObject (<[f_type := VStr (js "element")]>
           (<[f_tagName := VStr (js tag)]>
            (<[f_properties := VRef props]>
             (<[f_children := VRef children]> ∅)))).

Definition text (value : string) : obj :=
  OObject (<[f_type := VStr (js "text")]> (<[f_value := VStr (js value)]> ∅)).

Definition properties (kvs : list (string * val)) : obj :=
  OObject (list_to_map ((fun kv => (js kv.1, kv.2)) <$> kvs)).

Definition heap_of (os : list obj) : heap :=
  list_to_map (imap (fun i o => (Pos.of_succ_nat i, o)) os).

Local Open Scope positive_scope.

(** [<li><input type="checkbox"></li>], the item at 6. *)
Definition item_unchecked : heap := heap_of [
  (* 1 *) properties [];
  (* 2 *) properties [("type", VStr (js "checkbox"))];
  (* 3 *) OArray [];
  (* 4 *) element "input" 2 3;
  (* 5 *) OArray [VRef 4];
  (* 6 *) element "li" 1 5 ].

(** [<li><input type="checkbox" checked></li>], the item at 6. *)
Definition item_checked : heap := heap_of [
  (* 1 *) properties [];
  (* 2 *) properties [("type", VStr (js "checkbox")); ("checked", VBool true)];
  (* 3 *) OArray [];
  (* 4 *) element "input" 2 3;
  (* 5 *) OArray [VRef 4];
  (* 6 *) element "li" 1 5 ].

(** [<li><p><input type="checkbox"> text</p></li>], the item at 9. *)
Definition item_paragraph : heap := heap_of [
  (* 1 *) properties [];
  (* 2 *) properties [("type", VStr (js "checkbox"))];
  (* 3 *) OArray [];
  (* 4 *) element "input" 2 3;
  (* 5 *) text " text";
  (* 6 *) OArray [VRef 4; VRef 5];
  (* 7 *) element "p" 1 6;
  (* 8 *) OArray [VRef 7];
  (* 9 *) element "li" 1 8 ].

(** [<li><p>text</p></li>], the item at 6. *)
Definition item_paragraph_text : heap := heap_of [
  (* 1 *) properties [];
  (* 2 *) text "text";
  (* 3 *) OArray [VRef 2];
  (* 4 *) element "p" 1 3;
  (* 5 *) OArray [VRef 4];
  (* 6 *) element "li" 1 5 ].

(** [<li>text<input type="checkbox"></li>], the item at 7. *)
Definition item_text_first : heap := heap_of [
  (* 1 *) properties [];
  (* 2 *) properties [("type", VStr (js "checkbox"))];
  (* 3 *) OArray [];
  (* 4 *) element "input" 2 3;
  (* 5 *) text "text";
  (* 6 *) OArray [VRef 5; VRef 4];
  (* 7 *) element "li" 1 6 ].

(** [<li><input type="checkbox"><input type="checkbox">x</li>], the item
    at 8. *)
Definition item_two_checkboxes : heap := heap_of [
  (* 1 *) properties [];
  (* 2 *) properties [("type", VStr (js "checkbox"))];
  (* 3 *) OArray [];
  (* 4 *) element "input" 2 3;
  (* 5 *) element "input" 2 3;
  (* 6 *) text "x";
  (* 7 *) OArray [VRef 4; VRef 5; VRef 6];
  (* 8 *) element "li" 1 7 ].

(** [<li><em><input type="checkbox" checked> done</em><b>!</b></li>], the
    item at 13. *)
Definition item_task : heap := heap_of [
  (* 1 *) properties [];
  (* 2 *) properties [("type", VStr (js "checkbox")); ("checked", VBool true)];
  (* 3 *) OArray [];
  (* 4 *) element "input" 2 3;
  (* 5 *) text " done";
  (* 6 *) OArray [VRef 4; VRef 5];
  (* 7 *) element "em" 1 6;
  (* 8 *) text "!";
  (* 9 *) OArray [VRef 8];
  (* 10 *) element "b" 1 9;
  (* 11 *) OArray [VRef 7; VRef 10];
  (* 12 *) properties [("className", VStr (js "task"))];
  (* 13 *) element "li" 12 11 ].

(** [<li><div><ul></ul><p>a</p></div></li>], the item at 11; and
    [<li><ul></ul><div></div></li>], the item at 13. *)
Definition item_blocks : heap := heap_of [
  (* 1 *) properties [];
  (* 2 *) text "a";
  (* 3 *) OArray [VRef 2];
  (* 4 *) element "p" 1 3;
  (* 5 *) OArray [];
  (* 6 *) element "ul" 1 5;
  (* 7 *) OArray [VRef 6; VRef 4];
  (* 8 *) element "div" 1 7;
  (* 9 *) OArray [];
  (* 10 *) OArray [VRef 8];
  (* 11 *) element "li" 1 10;
  (* 12 *) OArray [VRef 6; VRef 8];
  (* 13 *) element "li" 1 12 ].

(** [<li>a<em><p>a</p></em></li>], the item at 9: phrasing content only,
    with a paragraph inside it. *)
Definition item_phrasing : heap := heap_of [
  (* 1 *) properties [];
  (* 2 *) text "a";
  (* 3 *) OArray [VRef 2];
  (* 4 *) element "p" 1 3;
  (* 5 *) OArray [VRef 4];
  (* 6 *) element "em" 1 5;
  (* 7 *) text "a";
  (* 8 *) OArray [VRef 7; VRef 6];
  (* 9 *) element "li" 1 8 ].

(** [<li></li>], the item at 3. *)
Definition item_empty : heap := heap_of [
  (* 1 *) properties [];
  (* 2 *) OArray [];
  (* 3 *) element "li" 1 2 ].

(** A tree that is no hast: a checkbox followed by a text without [value].
    The item is at 7. *)
Definition item_text_without_value : heap := heap_of [
  (* 1 *) properties [];
  (* 2 *) properties [("type", VStr (js "checkbox"))];
  (* 3 *) OArray [];
  (* 4 *) element "input" 2 3;
  (* 5 *) OObject {[ f_type := VStr (js "text") ]};
  (* 6 *) OArray [VRef 4; VRef 5];
  (* 7 *) element "li" 1 6 ].

(** [<li><input type="checkbox"><b>x</b></li>], the item at 9. *)
Definition item_checkbox_bold : heap := heap_of [
  (* 1 *) properties [];
  (* 2 *) properties [("type", VStr (js "checkbox"))];
  (* 3 *) OArray [];
  (* 4 *) element "input" 2 3;
  (* 5 *) text "x";
  (* 6 *) OArray [VRef 5];
  (* 7 *) element "b" 1 6;
  (* 8 *) OArray [VRef 4; VRef 7];
  (* 9 *) element "li" 1 8 ].

(** [<li><input type="checkbox"> <a>link</a></li>], the item at 10. *)
Definition item_checkbox_link : heap := heap_of [
  (* 1 *) properties [];
  (* 2 *) properties [("type", VStr (js "checkbox"))];
  (* 3 *) OArray [];
  (* 4 *) element "input" 2 3;
  (* 5 *) text " ";
  (* 6 *) text "link";
  (* 7 *) OArray [VRef 6];
  (* 8 *) element "a" 1 7;
  (* 9 *) OArray [VRef 4; VRef 5; VRef 8];
  (* 10 *) element "li" 1 9 ].

Local Close Scope positive_scope.

(** A classification to run the examples with: the tag is one of a few
    phrasing tags of HTML. *)
Definition sample_phrasing (h : heap) (v : val) : bool :=
  bool_decide (member h v f_tagName ∈
    (VStr ∘ js) <$> ["a"; "b"; "code"; "em"; "i"; "img"; "input"; "label";
                     "span"; "strong"]).

(** A [state] to run the examples with: [all] returns the children of the
    parent as they are, [toFlow] its argument, and [patch] does nothing. *)
Definition sample_state : State := {|
  all := fun parent h => Ret (member h (VRef parent) f_children) h;
  toFlow := fun nodes h => Ret nodes h;
  patch := fun _ _ h => Ret tt h;
|}.

(** The hypotheses and results on the sample trees are closed terms: they
    are settled by evaluation. *)
Ltac by_computation := vm_compute; reflexivity.

(* ===================================================================== *)
(** * The primitives on small inputs *)
(* ===================================================================== *)

Example trim_start_spaces : trim_start (js "  a b ") = js "a b ".
Proof. reflexivity. Qed.

(** No-break space, byte order mark and line separator are white space;
    U+0085 is not. *)
Example trim_start_unicode : trim_start [160; 65279; 8232; 97]%N = [97]%N.
Proof. reflexivity. Qed.

Example trim_start_next_line : trim_start [133; 32; 97]%N = [133; 32; 97]%N.
Proof. reflexivity. Qed.

Example trim_start_blank : trim_start (js (String "009" (String "010" " "))) = [].
Proof. reflexivity. Qed.

Example truthy_values :
  map truthy [VUndef; VNull; VBool false; VNum 0; VStr []; VBool true;
              VNum (-1); VStr (js "false"); VRef 1%positive]
  = [false; false; false; false; false; true; true; true; true].
Proof. reflexivity. Qed.

(** [children[0]] of an empty array is [undefined], and reading its [type]
    throws. *)
Example type_of_first_of_empty :
  let h : heap := {[ 1%positive := OArray [] ]} in
  index0 h (VRef 1%positive) = VUndef
  ∧ get (index0 h (VRef 1%positive)) f_type h = Throw h.
Proof. split; reflexivity. Qed.

(* ===================================================================== *)
(** * Reading and extending heaps *)
(* ===================================================================== *)

Lemma fresh_lookup (h : heap) : h !! fresh (dom h) = None.
Proof. apply not_elem_of_dom, is_fresh. Qed.

Lemma own_fields_weaken (h h' : heap) l :
  h ⊆ h' → is_Some (h !! l) → own_fields h' l = own_fields h l.
Proof.
  intros Hsub [o Ho]. unfold own_fields.
  by rewrite (lookup_weaken _ _ _ _ Ho Hsub), Ho.
Qed.

Lemma own_fields_insert_ne (h : heap) a o l :
  a ≠ l → own_fields (<[a := o]> h) l = own_fields h l.
Proof. intros. unfold own_fields. by rewrite lookup_insert_ne. Qed.

Lemma member_weaken (h h' : heap) l k :
  h ⊆ h' → is_Some (h !! l) → member h' (VRef l) k = member h (VRef l) k.
Proof. intros. simpl. by rewrite (own_fields_weaken h h'). Qed.

Lemma member_is_object (h : heap) v k w :
  member h v k = w → w ≠ VUndef →
  ∃ l m, v = VRef l ∧ h !! l = Some (OObject m) ∧ m !! k = Some w.
Proof.
  unfold member, own_fields. intros Hm Hw.
  destruct v as [| | | | |l]; try congruence.
  destruct (h !! l) as [[m|]|] eqn:Hl; simpl in Hm;
    try (rewrite lookup_empty in Hm; simpl in Hm; congruence).
  destruct (m !! k) as [x|] eqn:Hk; simpl in Hm; [|congruence].
  subst. eauto.
Qed.

Lemma is_str_member_object (h : heap) v k s :
  is_str (member h v k) s = true →
  ∃ l m, v = VRef l ∧ h !! l = Some (OObject m) ∧ m !! k = Some (VStr (js s)).
Proof.
  unfold is_str. intros H%bool_decide_eq_true.
  by apply member_is_object.
Qed.

Lemma children_of_Some (h : heap) l es :
  children_of h l = Some es ↔
  ∃ m a, h !! l = Some (OObject m) ∧ m !! f_children = Some (VRef a)
         ∧ h !! a = Some (OArray es).
Proof.
  unfold children_of. split.
  - destruct (member h (VRef l) f_children) as [| | | | |a] eqn:Hm; try done.
    apply member_is_object in Hm as (l' & m & [= <-] & Hl & Hk); [|done].
    destruct (h !! a) as [[|es']|] eqn:Ha; try done.
    intros [= ->]. eauto.
  - intros (m & a & Hl & Hk & Ha). simpl. unfold own_fields.
    by rewrite Hl, Hk; simpl; rewrite Ha.
Qed.

Lemma children_of_weaken (h h' : heap) l es :
  h ⊆ h' → children_of h l = Some es → children_of h' l = Some es.
Proof.
  intros Hsub (m & a & Hl & Hk & Ha)%children_of_Some.
  apply children_of_Some. exists m, a.
  eauto using lookup_weaken.
Qed.

(* ===================================================================== *)
(** * The loop of [rebuild], iteration by iteration *)
(* ===================================================================== *)

Lemma clean_leading_text_eq (h : heap) a after :
  h !! a = Some (OArray after) →
  clean_leading_text (VRef a) h =
    match clean h a after with
    | Some h' => Ret tt h'
    | None => Throw h
    end.
Proof.
  intros Ha. unfold clean_leading_text, clean, bind at 1.
  unfold index0. rewrite Ha.
  destruct after as [|c rest]; [done|]. cbn [head default from_option].
  unfold bind at 1, get, is_text.
  destruct c as [| | b | n | s | l]; try done.
  cbn [id].
  destruct (is_str (member h (VRef l) f_type) "text") eqn:Ht; [|done].
  unfold bind at 1. 
  destruct (member h (VRef l) f_value) as [| | | |s|] eqn:Hv; try done.
  unfold bind at 1, trimStart.
  destruct (trim_start s) as [|c s'] eqn:Hs.
  - simpl. unfold shift. rewrite Ha. done.
  - cbn [truthy]. unfold bind, spread_with, alloc, set0.
    assert (a ≠ fresh (dom h)) as Hne.
    { intros ->. by rewrite fresh_lookup in Ha. }
    rewrite lookup_insert_ne by done. rewrite Ha. done.
Qed.

(** The clean-up writes to [a] and to a new location only. *)
Lemma clean_other (h h' : heap) a after l :
  clean h a after = Some h' → l ≠ a → is_Some (h !! l) → h' !! l = h !! l.
Proof.
  unfold clean. intros Hc Hne Hl.
  assert (l ≠ fresh (dom h)) as Hf.
  { intros ->. rewrite fresh_lookup in Hl. by destruct Hl. }
  repeat case_match; simplify_eq; try done;
    by rewrite ?lookup_insert_ne by done.
Qed.

Lemma clean_extends (h0 h h' : heap) a after :
  clean h a after = Some h' → h0 ⊆ h → h0 !! a = None → h0 ⊆ h'.
Proof.
  intros Hc Hsub Ha. apply map_subseteq_spec. intros l o Hl.
  rewrite (clean_other h h' a after l Hc).
  - by eapply lookup_weaken.
  - intros ->. congruence.
  - eexists. by eapply lookup_weaken.
Qed.

Lemma first_child_ref (h : heap) p c :
  first_child h p = VRef c →
  ∃ m a, h !! p = Some (OObject m) ∧ m !! f_children = Some (VRef a)
    ∧ ((∃ es, h !! a = Some (OArray (VRef c :: es)))
       ∨ (∃ m', h !! a = Some (OObject m'))).
Proof.
  unfold first_child. intros Hf.
  destruct (truthy (member h (VRef p) f_children)) eqn:Ht; [|done].
  destruct (member h (VRef p) f_children) as [| | | |s|a] eqn:Hm; try done.
  { by destruct s. }
  apply member_is_object in Hm as (? & m & [= <-] & Hp & Hk); [|done].
  exists m, a. split_and!; [done..|].
  unfold index0 in Hf.
  destruct (h !! a) as [[m'|es]|]; [eauto| |done].
  left. destruct es as [|e es]; simplify_eq/=. eauto.
Qed.

Lemma rebuild_innermost_step node parent rest h c :
  first_child h parent = VRef c →
  rebuild node (parent :: rest) node h =
    (let* q := detach parent in rebuild node rest q) h.
Proof.
  intros (m & a0 & Hp & Hk & Ha)%first_child_ref.
  assert (Hm : member h (VRef parent) f_children = VRef a0).
  { simpl. unfold own_fields. by rewrite Hp, Hk. }
  cbn [rebuild]. unfold detach, children_of, bind, slice1.
  rewrite Hm, bool_decide_eq_false_2 by (by intros ?).
  destruct Ha as [[es Ha]|[m' Ha]]; rewrite Ha; [|done].
  unfold bind, alloc, ret. cbn [tail].
  set (a := fresh (dom h)). set (h1 := <[a := OArray es]> h).
  assert (h !! a = None) as Hfa by apply fresh_lookup.
  rewrite (clean_leading_text_eq h1 a es) by apply lookup_insert_eq.
  destruct (clean h1 a es) as [h2|] eqn:Hc; [|done].
  unfold spread_with, alloc.
  assert (h2 !! parent = h1 !! parent) as Hp2.
  { eapply clean_other; [done| |].
    - intros ->. congruence.
    - unfold h1. rewrite lookup_insert_ne by congruence. eauto. }
  unfold own_fields. rewrite Hp2. unfold h1.
  rewrite lookup_insert_ne by congruence. done.
Qed.

Lemma rebuild_ancestor_step node parent rest clone h :
  clone ≠ node →
  rebuild node (parent :: rest) clone h =
    (let* q := link_clone parent clone in rebuild node rest q) h.
Proof.
  intros Hne. cbn [rebuild]. unfold link_clone, bind.
  rewrite bool_decide_eq_true_2 by done.
  destruct (children_of h parent) as [es|] eqn:Hc.
  - apply children_of_Some in Hc as (m & a0 & Hp & Hk & Ha).
    assert (Hm : member h (VRef parent) f_children = VRef a0).
    { simpl. unfold own_fields. by rewrite Hp, Hk. }
    rewrite Hm. unfold slice1, alloc, bind, ret. rewrite Ha. 
    unfold unshift. rewrite lookup_insert_eq, insert_insert_eq.
    unfold spread_with, alloc.
    rewrite own_fields_insert_ne; [done|].
    intros <-. by rewrite fresh_lookup in Hp.
  - unfold children_of in Hc. unfold slice1, bind, alloc, ret.
    destruct (member h (VRef parent) f_children) as [| | | | |a0]; try done.
    destruct (h !! a0) as [[|]|]; done.
Qed.

(* ===================================================================== *)
(** * What the loop of [rebuild] builds *)
(* ===================================================================== *)

Lemma cleaned_weaken (h h1 h2 : heap) after es' :
  cleaned h h1 after es' → h1 ⊆ h2 → cleaned h h2 after es'.
Proof.
  intros Hc Hsub. destruct Hc.
  - eapply cleaned_trimmed; eauto using lookup_weaken.
  - eapply cleaned_dropped; eauto.
  - by apply cleaned_kept.
Qed.

Lemma rebuilt_weaken (h h1 h2 : heap) spine q :
  rebuilt h h1 spine q → h1 ⊆ h2 → rebuilt h h2 spine q.
Proof.
  intros Hr Hsub. induction Hr.
  - eapply rebuilt_innermost; eauto using lookup_weaken, cleaned_weaken.
  - eapply rebuilt_ancestor; eauto using lookup_weaken.
Qed.

Lemma rebuilt_new (h h' : heap) spine q :
  rebuilt h h' spine q → h !! q = None ∧ is_Some (h' !! q).
Proof. destruct 1; eauto. Qed.

Lemma is_text_weaken (h h' : heap) c :
  h ⊆ h' → is_text h c = true → is_text h' c = true.
Proof.
  intros Hsub (l & m & -> & Hl & Hk)%is_str_member_object.
  unfold is_text, is_str. apply bool_decide_eq_true. simpl. unfold own_fields.
  by rewrite (lookup_weaken _ _ _ _ Hl Hsub), Hk.
Qed.

Lemma is_text_insert_new (h : heap) a o c :
  h !! a = None → is_text h c = true → is_text (<[a := o]> h) c = true.
Proof. intros. eapply is_text_weaken; [|done]. by apply insert_subseteq. Qed.

Lemma clean_cleaned (h h2 : heap) a after :
  h !! a = None →
  clean (<[a := OArray after]> h) a after = Some h2 →
  ∃ es', cleaned h h2 after es' ∧ h2 !! a = Some (OArray es').
Proof.
  intros Ha Hc. unfold clean in Hc.
  set (h1 := <[a := OArray after]> h) in *.
  assert (h1 !! a = Some (OArray after)) as Ha1 by apply lookup_insert_eq.
  assert (∀ c rest, after = c :: rest → is_text h1 c = false →
          Some h1 = Some h2 →
          ∃ es', cleaned h h2 after es' ∧ h2 !! a = Some (OArray es')) as Hkept.
  { intros c rest Heq Hc1 [= <-]. eexists. split; [|done]. rewrite Heq.
    apply cleaned_kept. destruct (is_text h c) eqn:E; [|done].
    pose proof (is_text_insert_new h a (OArray after) c Ha E) as E'.
    unfold h1 in Hc1. congruence. }
  destruct after as [|c rest]; [done|].
  destruct c as [| | b | n | s | l]; try done; try by eapply Hkept.
  destruct (is_text h1 (VRef l)) eqn:Ht; [|by eapply Hkept].
  apply is_str_member_object in Ht as (? & m & [= <-] & Hl & Hk).
  assert (l ≠ a) as Hla by (intros ->; congruence).
  assert (own_fields h1 l = m) as Hof by (unfold own_fields; by rewrite Hl).
  assert (h !! l = Some (OObject m)) as Hl0.
  { by rewrite <- Hl; unfold h1; rewrite lookup_insert_ne. }
  simpl in Hc. rewrite Hof in Hc.
  destruct (m !! f_value) as [[| | | |s|]|] eqn:Hv; try done. simpl in Hc.
  destruct (trim_start s) as [|c s'] eqn:Hs; simplify_eq.
  - exists rest. split; [|apply lookup_insert_eq].
    by eapply cleaned_dropped.
  - eexists. split; [|apply lookup_insert_eq].
    assert (h1 !! fresh (dom h1) = None) as Hf by apply fresh_lookup.
    assert (a ≠ fresh (dom h1)) as Hne by (intros E; rewrite <- E in Hf; congruence).
    rewrite <- Hs. eapply cleaned_trimmed; eauto.
    + by rewrite Hs.
    + eapply lookup_weaken_None; [done|]. by apply insert_subseteq.
    + by rewrite lookup_insert_ne, lookup_insert_eq.
Qed.

Lemma clean_extends_new (h h2 : heap) a after :
  h !! a = None →
  clean (<[a := OArray after]> h) a after = Some h2 → h ⊆ h2.
Proof.
  intros Ha Hc. eapply clean_extends; [done| |done].
  by apply insert_subseteq.
Qed.

Lemma detach_spec (h : heap) p :
  match detach p h with
  | Ret q h' => rebuilt h h' [p] q ∧ h ⊆ h'
  | Throw h' => h ⊆ h'
  | _ => False
  end.
Proof.
  unfold detach. destruct (children_of h p) as [es|] eqn:Hes; [|done].
  set (a := fresh (dom h)).
  assert (h !! a = None) as Ha by apply fresh_lookup.
  destruct (clean _ a (tail es)) as [h2|] eqn:Hc; [|by apply insert_subseteq].
  pose proof (clean_extends_new _ _ _ _ Ha Hc) as Hsub.
  destruct (clean_cleaned _ _ _ _ Ha Hc) as (es' & Hcl & Ha2).
  set (q := fresh (dom h2)).
  assert (h2 !! q = None) as Hq by apply fresh_lookup.
  assert (h2 ⊆ <[q := OObject (<[f_children := VRef a]> (own_fields h p))]> h2)
    as Hsub2 by by apply insert_subseteq.
  split; [|by etrans].
  eapply rebuilt_innermost; eauto using cleaned_weaken, lookup_weaken.
  - by eapply lookup_weaken_None.
  - apply lookup_insert_eq.
Qed.

Lemma link_clone_spec (h0 h : heap) p w spine clone es :
  rebuilt h0 h (w :: spine) clone → h0 ⊆ h →
  children_of h0 p = Some es →
  ∃ q h', link_clone p clone h = Ret q h'
    ∧ rebuilt h0 h' (p :: w :: spine) q ∧ h0 ⊆ h'.
Proof.
  intros Hr Hsub Hes0. unfold link_clone.
  rewrite (children_of_weaken _ _ _ _ Hsub Hes0).
  set (a := fresh (dom h)). set (h1 := <[a := _]> h).
  set (q := fresh (dom h1)).
  assert (h !! a = None) as Ha by apply fresh_lookup.
  assert (h1 !! q = None) as Hq by apply fresh_lookup.
  assert (h ⊆ h1) as Hsub1 by by apply insert_subseteq.
  assert (a ≠ q) as Hne.
  { intros E. rewrite <- E in Hq. unfold h1 in Hq. by rewrite lookup_insert_eq in Hq. }
  apply children_of_Some in Hes0 as Hp. destruct Hp as (m & a0 & Hp & _).
  rewrite (own_fields_weaken h0 h) by eauto.
  eexists _, _. split; [done|]. split.
  - eapply rebuilt_ancestor; [| done | | | apply lookup_insert_eq |].
    + eapply rebuilt_weaken; [done|]. etrans; [done|]. by apply insert_subseteq.
    + eapply lookup_weaken_None; [done|]. by etrans.
    + by eapply lookup_weaken_None.
    + rewrite lookup_insert_ne by done. apply lookup_insert_eq.
  - etrans; [done|]. etrans; [done|]. by apply insert_subseteq.
Qed.

Lemma first_child_children_of (h0 h : heap) p c :
  first_child h0 p = VRef c → h0 ⊆ h → children_of h p = children_of h0 p.
Proof.
  intros (m & a & Hp & Hk & Ha)%first_child_ref Hsub.
  unfold children_of. rewrite (member_weaken h0 h) by eauto.
  simpl. unfold own_fields. rewrite Hp, Hk. simpl.
  destruct Ha as [[es Ha]|[m' Ha]];
    by rewrite (lookup_weaken _ _ _ _ Ha Hsub), Ha.
Qed.

Lemma first_child_in_heap (h : heap) p c :
  first_child h p = VRef c → is_Some (h !! p).
Proof. intros (m & a & Hp & _)%first_child_ref. eauto. Qed.

Lemma rebuild_ancestors node rest :
  ∀ w spine clone (h0 h : heap),
    rebuilt h0 h (w :: spine) clone → h0 ⊆ h → is_Some (h0 !! node) →
    Forall (λ p, ∃ c, first_child h0 p = VRef c) rest →
    match rebuild node rest clone h with
    | Ret q h' => rebuilt h0 h' (rev rest ++ w :: spine) q ∧ h0 ⊆ h'
    | Throw h' =>
        h0 ⊆ h' ∧ ¬ Forall (λ p, is_Some (children_of h0 p)) rest
    | _ => False
    end.
Proof.
  induction rest as [|p rest IH]; intros w spine clone h0 h Hr Hsub Hnode Hfc.
  { simpl. done. }
  apply Forall_cons in Hfc as [[c Hc] Hfc].
  assert (clone ≠ node) as Hne.
  { intros ->. apply rebuilt_new in Hr as [Hr _].
    destruct Hnode as [? Hnode]. congruence. }
  rewrite rebuild_ancestor_step by done. unfold bind.
  destruct (children_of h0 p) as [es|] eqn:Hes.
  - destruct (link_clone_spec h0 h p w spine clone es Hr Hsub Hes)
      as (q & h' & -> & Hr' & Hsub').
    specialize (IH p (w :: spine) q h0 h' Hr' Hsub' Hnode Hfc).
    destruct (rebuild node rest q h') as [q' h''|h''| |]; try done.
    + cbn [rev]. by rewrite <- app_assoc.
    + destruct IH as [? IH]. split; [done|].
      intros [_ ?]%Forall_cons. by apply IH.
  - unfold link_clone. rewrite (first_child_children_of h0 h p c), Hes by done.
    split; [done|]. intros [[? ?] _]%Forall_cons. congruence.
Qed.

Lemma rebuild_spec node p rest (h : heap) :
  is_Some (h !! node) →
  Forall (λ p, ∃ c, first_child h p = VRef c) (p :: rest) →
  match rebuild node (p :: rest) node h with
  | Ret q h' => rebuilt h h' (rev (p :: rest)) q ∧ h ⊆ h'
  | Throw h' =>
      h ⊆ h' ∧ ((∃ h1, detach p h = Throw h1)
                ∨ ¬ Forall (λ p, is_Some (children_of h p)) rest)
  | _ => False
  end.
Proof.
  intros Hnode [[c Hc] Hfc]%Forall_cons.
  rewrite (rebuild_innermost_step node p rest h c Hc). unfold bind.
  pose proof (detach_spec h p) as Hd.
  destruct (detach p h) as [q h1|h1| |]; try done; [|eauto].
  destruct Hd as [Hr Hsub].
  assert (is_Some (h !! node)) as Hnode' by done.
  pose proof (rebuild_ancestors node rest p [] q h h1 Hr Hsub Hnode Hfc) as Ha.
  destruct (rebuild node rest q h1) as [q' h2|h2| |]; try done.
  destruct Ha as [? Ha]. eauto.
Qed.

(* ===================================================================== *)
(** * The descent of [extractLeadingCheckbox] *)
(* ===================================================================== *)

Lemma forallb_Forall {A} (f : A → bool) (l : list A) :
  forallb f l = true ↔ Forall (λ x, f x = true) l.
Proof.
  induction l as [|x l IH]; simpl; [by split; constructor|].
  rewrite andb_true_iff, Forall_cons. by rewrite IH.
Qed.

Section Descent.
Variable phrasing : heap → val → bool.

Lemma is_checkbox_ref (h : heap) v :
  is_checkbox h v = true → ∃ c, v = VRef c ∧ is_Some (h !! c).
Proof.
  unfold is_checkbox. rewrite !andb_true_iff.
  intros [[[[_ Ht] _] _] _].
  apply is_str_member_object in Ht as (l & m & -> & Hl & _). eauto.
Qed.

Lemma is_wrapper_ref (h : heap) v :
  is_wrapper phrasing h v = true → ∃ c, v = VRef c ∧ is_Some (h !! c).
Proof.
  unfold is_wrapper. rewrite !andb_true_iff.
  intros [[_ Ht] _].
  apply is_str_member_object in Ht as (l & m & -> & Hl & _). eauto.
Qed.

(** The loop of [extractLeadingCheckbox] is the descent of the
    specification, followed by [rebuild] when a checkbox is found. *)
Lemma descend_search fuel node (h : heap) :
  ∀ p above,
    descend phrasing fuel node (p :: above) h =
      match leading_checkbox phrasing fuel h p above with
      | Found parents control =>
          (let* clone := rebuild node parents node in
           ret (VBool (truthy (member h (member h control f_properties)
                                      f_checked)), clone)) h
      | NotFound => Ret (VNull, node) h
      | TooDeep => OutOfFuel
      end.
Proof.
  induction fuel as [|fuel IH]; intros p above; [done|].
  cbn [descend leading_checkbox]. unfold first_child.
  destruct (truthy (member h (VRef p) f_children)) eqn:Ht.
  - set (candidate := index0 h (member h (VRef p) f_children)).
    destruct (is_checkbox h candidate) eqn:Hcb; [done|].
    destruct (is_wrapper phrasing h candidate) eqn:Hw; [|done].
    destruct candidate; try done.
  - done.
Qed.

Lemma leading_checkbox_spine n (h : heap) :
  ∀ p above parents control,
    leading_checkbox phrasing n h p above = Found parents control →
    ∃ spine, on_spine phrasing h (p :: spine) control
             ∧ parents = rev (p :: spine) ++ above
             ∧ length (p :: spine) ≤ n.
Proof.
  induction n as [|n IH]; intros p above parents control; [done|].
  cbn [leading_checkbox].
  destruct (is_checkbox h (first_child h p)) eqn:Hcb.
  { intros [= <- <-]. exists []. split_and!; [by constructor|done|simpl; lia]. }
  destruct (is_wrapper phrasing h (first_child h p)) eqn:Hw; [|done].
  destruct (first_child h p) as [| | | | |w] eqn:Hfc; try done.
  intros (spine & Hs & -> & Hlen)%IH.
  exists (w :: spine). split_and!.
  - by constructor.
  - cbn [rev]. by rewrite <- !app_assoc.
  - simpl in *. lia.
Qed.

Lemma on_spine_leading_checkbox (h : heap) spine control :
  on_spine phrasing h spine control →
  ∀ n above, length spine ≤ n →
    match spine with
    | p :: _ =>
        leading_checkbox phrasing n h p above = Found (rev spine ++ above) control
    | [] => False
    end.
Proof.
  induction 1 as [p control Hfc Hcb|p w spine control Hfc Hcb Hw Hs IH];
    intros n above Hn.
  - destruct n as [|n]; [simpl in Hn; lia|].
    cbn [leading_checkbox]. by rewrite Hfc, Hcb.
  - destruct n as [|n]; [simpl in Hn; lia|].
    cbn [leading_checkbox]. rewrite Hfc, Hcb, Hw.
    rewrite (IH n (p :: above)) by (simpl in *; lia).
    cbn [rev]. by rewrite <- !app_assoc.
Qed.

Lemma on_spine_first_child (h : heap) spine control :
  on_spine phrasing h spine control →
  Forall (λ p, ∃ c, first_child h p = VRef c) spine.
Proof.
  induction 1 as [p control Hfc Hcb|p w spine control Hfc Hcb Hw Hs IH].
  - apply is_checkbox_ref in Hcb as (c & -> & _). repeat constructor. eauto.
  - constructor; eauto.
Qed.

Lemma on_spine_nonempty (h : heap) spine control :
  on_spine phrasing h spine control → ∃ p rest, spine = p :: rest.
Proof. destruct 1; eauto. Qed.

Lemma on_spine_last (h : heap) spine control :
  on_spine phrasing h spine control →
  ∃ p, last spine = Some p ∧ first_child h p = control
       ∧ is_checkbox h control = true.
Proof.
  induction 1 as [p control Hfc Hcb|p w spine control Hfc Hcb Hw Hs IH]; eauto.
Qed.

(** [extractLeadingCheckbox] when the descent finds a checkbox. *)
Lemma extract_found n (h : heap) node spine control :
  on_spine phrasing h (node :: spine) control →
  length (node :: spine) ≤ n →
  match extractLeadingCheckbox phrasing n node h with
  | Ret (checked, clone) h' =>
      checked = VBool (truthy (member h (member h control f_properties)
                                      f_checked))
      ∧ rebuilt h h' (node :: spine) clone ∧ h ⊆ h'
  | Throw h' =>
      h ⊆ h'
      ∧ ((∃ p h1, last (node :: spine) = Some p ∧ detach p h = Throw h1)
         ∨ ¬ Forall (λ p, is_Some (children_of h p)) (node :: spine))
  | _ => False
  end.
Proof.
  intros Hs Hn. unfold extractLeadingCheckbox.
  rewrite descend_search.
  pose proof (on_spine_leading_checkbox h _ _ Hs n [] Hn) as ->.
  rewrite app_nil_r.
  pose proof (on_spine_first_child h _ _ Hs) as Hfc.
  assert (is_Some (h !! node)) as Hnode.
  { apply Forall_cons in Hfc as [[c Hc] _]. by eapply first_child_in_heap. }
  apply Forall_rev in Hfc.
  destruct (on_spine_last h _ _ Hs) as (p & Hlast & _).
  destruct (rev (node :: spine)) as [|p' rest] eqn:Hrev.
  { apply (f_equal length) in Hrev. rewrite length_rev in Hrev. done. }
  assert (p' = p) as ->.
  { rewrite <- (rev_involutive (node :: spine)), Hrev in Hlast.
    cbn [rev] in Hlast. rewrite last_snoc in Hlast. congruence. }
  pose proof (rebuild_spec node p rest h Hnode Hfc) as Hr.
  unfold bind. 
  destruct (rebuild node (p :: rest) node h) as [q h'|h'| |]; try done.
  - unfold ret. rewrite <- Hrev, rev_involutive in Hr. by destruct Hr.
  - destruct Hr as [? [[h1 Hr]|Hr]]; (split; [done|]); [by eauto|].
    right. intros Hall. apply Hr.
    apply Forall_rev in Hall. rewrite Hrev in Hall.
    by apply Forall_cons in Hall as [_ ?].
Qed.

Lemma extract_not_found n (h : heap) node :
  leading_checkbox phrasing n h node [] = NotFound →
  extractLeadingCheckbox phrasing n node h = Ret (VNull, node) h.
Proof.
  intros Hs. unfold extractLeadingCheckbox. by rewrite descend_search, Hs.
Qed.

Lemma extract_too_deep n (h : heap) node :
  leading_checkbox phrasing n h node [] = TooDeep →
  extractLeadingCheckbox phrasing n node h = OutOfFuel.
Proof.
  intros Hs. unfold extractLeadingCheckbox. by rewrite descend_search, Hs.
Qed.

Lemma hast_node_inv n (h : heap) v :
  hast_node n h v = true →
  ∃ k l m, n = S k ∧ v = VRef l ∧ h !! l = Some (OObject m)
    ∧ (m !! f_children = None ∧ is_element h v = false
       ∨ ∃ a es, m !! f_children = Some (VRef a)
                 ∧ h !! a = Some (OArray es)
                 ∧ Forall (λ c, hast_node k h c = true) es)
    ∧ (∀ p, m !! f_properties = Some (VRef p) → is_Some (h !! p))
    ∧ (is_text h v = true → ∃ s, m !! f_value = Some (VStr s)).
Proof.
  destruct n as [|k]; [done|]. cbn [hast_node].
  destruct v as [| | | | |l]; try done.
  destruct (h !! l) as [[m|]|] eqn:Hl; try done.
  rewrite !andb_true_iff. intros [[Hc Hp] Hv].
  exists k, l, m. split_and!; try done.
  - destruct (m !! f_children) as [[| | | | |a]|] eqn:Hk; try done.
    + right. destruct (h !! a) as [[|es]|] eqn:Ha; try done.
      exists a, es. split_and!; try done.
      by apply forallb_Forall.
    + left. split; [done|]. by apply negb_true_iff.
  - intros p Hpp. rewrite Hpp in Hp. by apply bool_decide_eq_true in Hp.
  - intros Ht. rewrite Ht in Hv.
    destruct (m !! f_value) as [[| | | |s|]|]; try done. eauto.
Qed.

Lemma hast_node_first_child n (h : heap) p c :
  hast_node n h (VRef p) = true → first_child h p = VRef c →
  ∃ k es, n = S k ∧ children_of h p = Some (VRef c :: es)
          ∧ Forall (λ c, hast_node k h c = true) (VRef c :: es).
Proof.
  intros (k & ? & m & -> & [= <-] & Hp & Hch & _)%hast_node_inv Hfc.
  apply first_child_ref in Hfc as (m' & a & Hp' & Hk & Ha).
  assert (m' = m) as -> by congruence.
  destruct Hch as [[Hno _]|(a' & es & Hk' & Ha' & Hall)]; [congruence|].
  assert (a' = a) as -> by congruence.
  destruct Ha as [[es' Ha]|[? Ha]]; [|congruence].
  assert (es = VRef c :: es') as -> by congruence.
  exists k, es'. split_and!; try done.
  apply children_of_Some. eauto.
Qed.

(** The descent in a hast node of height below [n] ends within [n] steps. *)
Lemma hast_node_search n (h : heap) :
  ∀ p above, hast_node n h (VRef p) = true →
    leading_checkbox phrasing n h p above ≠ TooDeep.
Proof.
  induction n as [|n IH]; intros p above Hn; [done|].
  cbn [leading_checkbox].
  destruct (is_checkbox h (first_child h p)); [done|].
  destruct (is_wrapper phrasing h (first_child h p)); [|done].
  destruct (first_child h p) as [| | | | |w] eqn:Hfc; try done.
  apply IH.
  destruct (hast_node_first_child _ _ _ _ Hn Hfc) as (k & es & [= <-] & _ & Hall).
  by apply Forall_cons in Hall as [? _].
Qed.

Lemma hast_node_mono n k (h : heap) v :
  hast_node n h v = true → n ≤ k → hast_node k h v = true.
Proof.
  revert k v. induction n as [|n IH]; intros k v Hn Hle; [done|].
  destruct k as [|k]; [lia|].
  cbn [hast_node] in *.
  destruct v as [| | | | |l]; try done.
  destruct (h !! l) as [[m|]|]; try done.
  destruct (m !! f_children) as [[| | | | |a]|]; try done.
  destruct (h !! a) as [[|es]|]; try done.
  rewrite !andb_true_iff in *. destruct Hn as [[Hes ?] ?]. split_and!; try done.
  apply forallb_Forall. apply forallb_Forall in Hes.
  eapply Forall_impl; [done|]. intros c Hc. simpl in Hc. eapply IH; [done|lia].
Qed.

(** The elements of the spine of a hast node are hast nodes. *)
Lemma hast_node_spine n (h : heap) spine control :
  on_spine phrasing h spine control →
  ∀ p rest, spine = p :: rest → hast_node n h (VRef p) = true →
    Forall (λ x, hast_node n h (VRef x) = true) spine.
Proof.
  induction 1 as [p control Hfc Hcb|p w spine control Hfc Hcb Hw Hs IH];
    intros p' rest [= <- <-] Hn.
  - by repeat constructor.
  - constructor; [done|].
    destruct (hast_node_first_child _ _ _ _ Hn Hfc) as (k & es & -> & _ & Hall).
    apply Forall_cons in Hall as [Hw' _].
    eapply IH; [done|]. eapply hast_node_mono; [done|lia].
Qed.

Lemma hast_node_children n (h : heap) p c :
  hast_node n h (VRef p) = true → first_child h p = VRef c →
  is_Some (children_of h p).
Proof.
  intros Hn Hfc.
  destruct (hast_node_first_child _ _ _ _ Hn Hfc) as (k & es & _ & -> & _).
  eauto.
Qed.
End Descent.


(* ===================================================================== *)
(** * The clone, read from its root *)
(* ===================================================================== *)

Lemma member_lookup (h : heap) l m k :
  h !! l = Some (OObject m) → member h (VRef l) k = default VUndef (m !! k).
Proof. intros Hl. simpl. unfold own_fields. by rewrite Hl. Qed.

Lemma rebuilt_fields (h h' : heap) spine q :
  rebuilt h h' spine q →
  ∃ p a, head spine = Some p
    ∧ h' !! q = Some (OObject (<[f_children := VRef a]> (own_fields h p)))
    ∧ h !! a = None ∧ is_Some (h' !! a).
Proof. destruct 1; eauto 10. Qed.

Lemma first_child_of_clone (h' : heap) q a m es :
  h' !! q = Some (OObject (<[f_children := VRef a]> m)) →
  h' !! a = Some (OArray es) →
  first_child h' q = default VUndef (head es)
  ∧ children_of h' q = Some es.
Proof.
  intros Hq Ha. split.
  - unfold first_child.
    rewrite (member_lookup h' q _ f_children Hq), lookup_insert_eq.
    simpl. by rewrite Ha.
  - apply children_of_Some. eexists _, a. split_and!; [done| |done].
    apply lookup_insert_eq.
Qed.

Lemma rebuilt_ancestor_first_child (h h' : heap) p w spine q :
  rebuilt h h' (p :: w :: spine) q →
  ∃ qw, first_child h' q = VRef qw ∧ rebuilt h h' (w :: spine) qw.
Proof.
  inversion 1 as [|? ? ? es ? qw a Hr Hes Hq Ha Hq' Ha']; subst.
  exists qw. split; [|done].
  by destruct (first_child_of_clone h' q a _ _ Hq' Ha') as [-> _].
Qed.

Lemma rebuilt_innermost_children (h h' : heap) p q :
  rebuilt h h' [p] q →
  ∃ es es', children_of h p = Some es ∧ cleaned h h' (tail es) es'
    ∧ children_of h' q = Some es'
    ∧ first_child h' q = default VUndef (head es').
Proof.
  inversion 1 as [? es ? a es' Hes Hcl Hq Ha Hq' Ha'|]; subst.
  exists es, es'.
  by destruct (first_child_of_clone h' q a _ _ Hq' Ha') as [-> ->].
Qed.

(** The copies are reached from the clone by its first children, and each
    is a new object. *)
Lemma rebuilt_descendant (h h' : heap) spine clone :
  rebuilt h h' spine clone →
  ∀ k, k < length spine →
    ∃ q, descendant_at h' k clone = Some q
         ∧ h !! q = None ∧ is_Some (h' !! q)
         ∧ rebuilt h h' (drop k spine) q.
Proof.
  induction 1 as [p es q a es' Hes Hcl Hq Ha Hq' Ha'
                 |p w spine es q qw a Hr IH Hes Hq Ha Hq' Ha'];
    intros k Hk.
  - destruct k as [|k]; [|simpl in Hk; lia].
    exists q. split_and!; eauto. by eapply rebuilt_innermost.
  - destruct k as [|k].
    + exists q. split_and!; eauto. by eapply rebuilt_ancestor.
    + destruct (IH k) as (q' & Hd & ?); [simpl in *; lia|].
      exists q'. split; [|done].
      cbn [descendant_at].
      by destruct (first_child_of_clone h' q a _ _ Hq' Ha') as [-> _].
Qed.

Lemma is_str_weaken (h h' : heap) c k s :
  h ⊆ h' → (∀ l, c = VRef l → is_Some (h !! l)) →
  is_str (member h' c k) s = is_str (member h c k) s.
Proof.
  intros Hsub Hc. destruct c as [| | | | |l]; try done.
  by rewrite (member_weaken h h') by eauto.
Qed.

Lemma is_element_weaken (h h' : heap) c :
  h ⊆ h' → (∀ l, c = VRef l → is_Some (h !! l)) →
  is_element h' c = is_element h c.
Proof. apply is_str_weaken. Qed.

Lemma not_element_no_checkbox (h : heap) c :
  is_element h c = false → is_checkbox h c = false.
Proof.
  unfold is_element, is_checkbox. intros ->.
  by rewrite andb_false_r.
Qed.

Section Second.
Variable phrasing : heap → val → bool.

Lemma not_element_no_wrapper (h : heap) c :
  is_element h c = false → is_wrapper phrasing h c = false.
Proof.
  unfold is_element, is_wrapper. intros ->.
  by rewrite andb_false_r.
Qed.

(** A copy is a checkbox no more than its original is. *)
Lemma clone_is_checkbox (h h' : heap) w qw a n :
  h ⊆ h' → hast_node n h (VRef w) = true →
  h' !! qw = Some (OObject (<[f_children := VRef a]> (own_fields h w))) →
  is_checkbox h' (VRef qw) = is_checkbox h (VRef w).
Proof.
  intros Hsub (k & ? & m & -> & [= <-] & Hw & _ & Hp & _)%hast_node_inv Hqw.
  assert (∀ key, key ≠ f_children →
          member h' (VRef qw) key = member h (VRef w) key) as Hsame.
  { intros key Hne. rewrite (member_lookup h' qw _ key Hqw).
    by rewrite lookup_insert_ne. }
  unfold is_checkbox. rewrite !Hsame by done.
  assert (member h' (member h (VRef w) f_properties) f_type
          = member h (member h (VRef w) f_properties) f_type) as ->; [|done].
  destruct (member h (VRef w) f_properties) as [| | | | |lp] eqn:Hlp; try done.
  apply member_weaken; [done|]. apply Hp.
  apply member_is_object in Hlp as (? & m' & [= <-] & Hw' & Hk); [|done].
  congruence.
Qed.

End Second.

(* ===================================================================== *)
(** * The descent in the clone *)
(* ===================================================================== *)

Section Again.
Variable phrasing : heap → val → bool.

(** A descent that ends without a checkbox ends so whatever the bound,
    unless the bound is too small. *)
Lemma leading_checkbox_not_found n (h : heap) :
  ∀ p above, leading_checkbox phrasing n h p above = NotFound →
    ∀ m above', leading_checkbox phrasing m h p above' = NotFound
                ∨ leading_checkbox phrasing m h p above' = TooDeep.
Proof.
  induction n as [|n IH]; intros p above Hn m above'; [done|].
  destruct m as [|m]; [by right|].
  cbn [leading_checkbox] in *.
  destruct (is_checkbox h (first_child h p)); [done|].
  destruct (is_wrapper phrasing h (first_child h p)); [|by left].
  destruct (first_child h p) as [| | | | |w]; try by left.
  by eapply IH.
Qed.

Lemma search_from_not_found n (h : heap) c above :
  search_from phrasing n h c above = NotFound →
  ∀ m above', search_from phrasing m h c above' = NotFound
              ∨ search_from phrasing m h c above' = TooDeep.
Proof.
  unfold search_from. intros Hn m above'.
  destruct (is_checkbox h c); [done|].
  destruct (is_wrapper phrasing h c); [|by left].
  destruct c as [| | | | |w]; try by left.
  by eapply leading_checkbox_not_found.
Qed.

(** The first child of the rebuilt parent of the checkbox is what followed
    the checkbox, or a text. *)
Lemma search_from_cleaned (h h' : heap) p es es' m above :
  h ⊆ h' → children_of h p = Some es → cleaned h h' (tail es) es' →
  search_from phrasing m h' (default VUndef (head es')) above
  = search_from phrasing m h' (after_first h p) above.
Proof.
  intros Hsub Hes Hcl. unfold after_first. rewrite Hes.
  destruct es as [|c0 es]; [inversion Hcl|]. cbn [tail] in Hcl.
  destruct Hcl as [t mt s rest t' Ht Hty Hv Hs Hnew Ht'
                  |t mt s rest Ht Hty Hv Hs|c rest Hc];
    cbn [head default from_option id].
  - assert (is_text h (VRef t) = true) as Htt.
    { unfold is_text. by rewrite (member_lookup h t _ f_type Ht), Hty. }
    rewrite Htt, (member_lookup h t _ f_value Ht), Hv.
    cbn [default from_option id]. rewrite bool_decide_eq_false_2 by done.
    assert (is_element h' (VRef t') = false) as Hne'.
    { unfold is_element. rewrite (member_lookup h' t' _ f_type Ht').
      by rewrite lookup_insert_ne, Hty. }
    assert (is_element h' (VRef t) = false) as Hne.
    { unfold is_element.
      rewrite (member_lookup h' t _ f_type (lookup_weaken _ _ _ _ Ht Hsub)).
      by rewrite Hty. }
    unfold search_from.
    by rewrite !(not_element_no_checkbox _ _ Hne), !(not_element_no_checkbox _ _ Hne'),
      !(not_element_no_wrapper phrasing _ _ Hne),
      !(not_element_no_wrapper phrasing _ _ Hne').
  - assert (is_text h (VRef t) = true) as Htt.
    { unfold is_text. by rewrite (member_lookup h t _ f_type Ht), Hty. }
    rewrite Htt, (member_lookup h t _ f_value Ht), Hv.
    cbn [default from_option id]. by rewrite bool_decide_eq_true_2.
  - by rewrite Hc.
Qed.

(** The descent in the clone passes the copies of the spine, and goes on
    at what followed the checkbox: it finds nothing, or what the descent
    from there finds. *)
Lemma clone_search (h h' : heap) N spine clone :
  rebuilt h h' spine clone →
  ∀ control p,
    on_spine phrasing h spine control →
    Forall (λ x, hast_node N h (VRef x) = true) spine →
    h ⊆ h' →
    last spine = Some p →
    ∀ n above, length spine ≤ n →
      leading_checkbox phrasing n h' clone above = NotFound
      ∨ ∃ m above',
          leading_checkbox phrasing n h' clone above
          = search_from phrasing m h' (after_first h p) above'.
Proof.
  induction 1 as [p es q a es' Hes Hcl Hq Ha Hq' Ha'
                 |p w spine es q qw a Hr IH Hes Hq Ha Hq' Ha'];
    intros control pl Hs Hall Hsub Hlast n above Hn.
  - destruct n as [|n]; [simpl in Hn; lia|].
    injection Hlast as <-. right. exists n, (q :: above).
    destruct (first_child_of_clone h' q a _ _ Hq' Ha') as [Hfc _].
    rewrite <- (search_from_cleaned h h' p es es' n (q :: above) Hsub Hes Hcl).
    cbn [leading_checkbox]. unfold search_from. by rewrite Hfc.
  - destruct n as [|n]; [simpl in Hn; lia|].
    inversion Hs as [|? ? ? ? Hfc Hcb Hw Hs']; subst.
    apply Forall_cons in Hall as [Hp Hall].
    cbn [leading_checkbox].
    destruct (first_child_of_clone h' q a _ _ Hq' Ha') as [-> _].
    cbn [head default from_option id].
    destruct (rebuilt_fields _ _ _ _ Hr) as (? & aw & [= <-] & Hqw & _).
    apply Forall_cons in Hall as Hall'. destruct Hall' as [Hwn _].
    rewrite (clone_is_checkbox h h' w qw aw N Hsub Hwn Hqw), Hcb.
    destruct (is_wrapper phrasing h' (VRef qw)); [|by left].
    eapply IH; eauto. simpl in *. lia.
Qed.
End Again.


(* ===================================================================== *)
(** * [spreadout] *)
(* ===================================================================== *)

Section Spread.
Variable phrasing : heap → val → bool.

(** One iteration of the loop of [spreadout] on a child that is an object. *)
Lemma spread_step_object (rec : val → M bool) (h : heap) c seen :
  spread_step phrasing rec (VRef c) seen h =
    if is_flow phrasing h (VRef c) then
      if has_tag h (VRef c) "p" || seen then Ret (Some true, seen) h
      else (let* sub := rec (VRef c) in
            if sub then ret (Some true, seen) else ret (None, true)) h
    else Ret (None, seen) h.
Proof.
  unfold spread_step, is_flow, is_element, has_tag, bind, get, ret.
  destruct (is_str (member h (VRef c) f_type) "element"); [|done].
  destruct (phrasing h (VRef c)); [done|]. simpl.
  destruct (is_str _ "p" || seen); done.
Qed.

(** [spreadout] reads the heap only. *)
Lemma spread_scan_heap (rec : val → M bool) :
  (∀ v (h : heap), match rec v h with
                   | Ret _ h' | Throw h' => h' = h
                   | _ => True
                   end) →
  ∀ es seen (h : heap),
    match spread_scan phrasing rec es seen h with
    | Ret _ h' | Throw h' => h' = h
    | _ => True
    end.
Proof.
  intros Hrec es. induction es as [|c es IH]; intros seen h; [done|].
  cbn [spread_scan]. unfold bind at 1.
  assert (match spread_step phrasing rec c seen h with
          | Ret _ h' | Throw h' => h' = h
          | _ => True
          end) as Hstep.
  { unfold spread_step, bind, get, ret.
    destruct c; try done;
      (destruct (is_str _ "element"); [|done]);
      (destruct (phrasing h _); [done|]);
      (destruct (is_str _ "p" || seen); [done|]);
      match goal with |- context [rec ?v h] =>
        specialize (Hrec v h); destruct (rec v h) as [[] ?|?| |] end; done. }
  destruct (spread_step phrasing rec c seen h) as [[[b|] seen'] h'|h'| |];
    try done; subst h'.
  apply IH.
Qed.

Lemma spreadout_heap fuel :
  ∀ v (h : heap),
    match spreadout phrasing fuel v h with
    | Ret _ h' | Throw h' => h' = h
    | _ => True
    end.
Proof.
  induction fuel as [|fuel IH]; intros v h; [done|].
  cbn [spreadout].
  destruct (member h v f_children) as [| | | | |a]; try done.
  destruct (h !! a) as [[|es]|]; try done.
  by apply spread_scan_heap.
Qed.

(** Children that are all phrasing content are all skipped. *)
Lemma spread_scan_phrasing (rec : val → M bool) (h : heap) es :
  forallb (is_phrasing_content phrasing h) es = true →
  ∀ seen, spread_scan phrasing rec es seen h = Ret false h.
Proof.
  induction es as [|c es IH]; [done|].
  cbn [forallb]. intros [Hc Hes]%andb_true_iff seen.
  cbn [spread_scan]. unfold bind.
  assert (spread_step phrasing rec c seen h = Ret (None, seen) h) as ->.
  { unfold is_phrasing_content in Hc. apply orb_true_iff in Hc as [Hc|Hc].
    - pose proof Hc as (l & m & -> & Hl & Hk)%is_str_member_object.
      rewrite spread_step_object.
      unfold is_flow, is_element. unfold is_text in Hc.
      destruct (member h (VRef l) f_type); try done.
      unfold is_str in *. apply bool_decide_eq_true in Hc as [= ->].
      done.
    - apply andb_true_iff in Hc as [He Hph].
      pose proof He as (l & m & -> & Hl & Hk)%is_str_member_object.
      rewrite spread_step_object.
      unfold is_flow. by rewrite He, Hph. }
  by apply IH.
Qed.

(** Modelled from the spec: of the classification, which is not among the
    sources, the glossary says that paragraphs are flow content, the
    converse of phrasing content.  So an element with the paragraph tag is
    not classified as phrasing. *)
Hypothesis paragraph_is_flow :
  ∀ (h : heap) v, has_tag h v "p" = true → phrasing h v = false.

Lemma spread_scan_spec (rec : val → M bool) (h : heap) es :
  Forall (λ c, ∃ l, c = VRef l) es →
  (∀ c, c ∈ es → is_flow phrasing h c = true → ∃ b, rec c h = Ret b h) →
  ∀ seen, ∃ b,
    spread_scan phrasing rec es seen h = Ret b h
    ∧ ((existsb (λ c, is_element h c && has_tag h c "p") es = true
        ∨ 2 ≤ length (filter (λ c, is_flow phrasing h c = true) es)
              + (if seen then 1 else 0)
        ∨ ∃ c, c ∈ es ∧ is_flow phrasing h c = true ∧ rec c h = Ret true h)
       → b = true).
Proof.
  induction es as [|c es IH]; intros Hobj Hrec seen.
  { exists false. split; [done|]. intros [?|[Hlen|(c & Hc & _)]]; try done.
    - simpl in Hlen. destruct seen; lia.
    - by apply elem_of_nil in Hc. }
  apply Forall_cons in Hobj as [[l ->] Hobj].
  assert (∀ c, c ∈ es → is_flow phrasing h c = true → ∃ b, rec c h = Ret b h)
    as Hrec' by (intros; apply Hrec; [set_solver|done]).
  cbn [spread_scan]. unfold bind at 1. rewrite spread_step_object.
  destruct (is_flow phrasing h (VRef l)) eqn:Hflow.
  - destruct (has_tag h (VRef l) "p" || seen) eqn:Hp.
    { exists true. done. }
    apply orb_false_iff in Hp as [Hp ->].
    destruct (Hrec (VRef l)) as [sub Hsub]; [set_solver|done|].
    unfold bind. rewrite Hsub. destruct sub.
    { exists true. done. }
    unfold ret. destruct (IH Hobj Hrec' true) as (b & -> & Hb).
    exists b. split; [done|]. intros Hcond. apply Hb.
    destruct Hcond as [Hex|[Hlen|(c & Hc & Hcf & Hct)]].
    + left. cbn [existsb] in Hex. by rewrite Hp, andb_false_r in Hex.
    + right. left. rewrite filter_cons_True in Hlen by done.
      simpl in Hlen. lia.
    + right. right. apply elem_of_cons in Hc as [->|Hc]; [congruence|eauto].
  - destruct (IH Hobj Hrec' seen) as (b & -> & Hb).
    exists b. split; [done|]. intros Hcond. apply Hb.
    destruct Hcond as [Hex|[Hlen|(c & Hc & Hcf & Hct)]].
    + left. cbn [existsb] in Hex. apply orb_true_iff in Hex as [Hex|Hex]; [|done].
      apply andb_true_iff in Hex as [He Hp].
      unfold is_flow in Hflow.
      by rewrite He, (paragraph_is_flow _ _ Hp) in Hflow.
    + right. left. rewrite filter_cons_False in Hlen; [done|].
      by rewrite Hflow.
    + right. right. apply elem_of_cons in Hc as [->|Hc]; [congruence|eauto].
Qed.

(** [spreadout] on a hast element returns, and returns [true] in the three
    cases of the specification. *)
Lemma spreadout_spec n (h : heap) :
  ∀ l, hast_node n h (VRef l) = true → is_element h (VRef l) = true →
    ∃ b, spreadout phrasing n (VRef l) h = Ret b h
         ∧ (∀ k, spread_spec phrasing k h l = true → b = true).
Proof.
  induction n as [|n IH]; intros l Hn He; [done|].
  apply hast_node_inv in Hn as (? & ? & m & [= <-] & [= <-] & Hl & Hch & _).
  destruct Hch as [[_ Hne]|(a & es & Hk & Ha & Hall)]; [congruence|].
  cbn [spreadout]. rewrite (member_lookup h l m f_children Hl), Hk.
  simpl. rewrite Ha.
  destruct (spread_scan_spec (spreadout phrasing n) h es) with (seen := false)
    as (b & Hb & Hcond).
  { eapply Forall_impl; [done|]. simpl.
    intros c (? & l' & ? & _ & -> & _)%hast_node_inv. eauto. }
  { intros c Hc [Hce _]%andb_true_iff.
    rewrite Forall_forall in Hall. pose proof (Hall c Hc) as Hcn.
    pose proof Hce as (l' & ? & -> & _)%is_str_member_object.
    destruct (IH l' Hcn Hce) as (b & ? & _). eauto. }
  exists b. split; [done|]. intros [|k] Hspec; [done|].
  apply Hcond. cbn [spread_spec] in Hspec.
  assert (children_of h l = Some es) as Hes.
  { apply children_of_Some. eauto. }
  rewrite Hes in Hspec. cbn [default from_option id] in Hspec.
  apply orb_true_iff in Hspec as [Hspec|Hspec];
    [apply orb_true_iff in Hspec as [Hspec|Hspec]|].
  - by left.
  - right. left. apply Nat.leb_le in Hspec. lia.
  - right. right.
    destruct (filter _ es) as [|[| | | | |c] [|]] eqn:Hf; try done.
    assert (VRef c ∈ filter (λ c, is_flow phrasing h c = true) es) as Hc
      by (rewrite Hf; set_solver).
    apply list_elem_of_filter in Hc as [Hcf Hc].
    exists (VRef c). split_and!; try done.
    pose proof Hcf as [Hce _]%andb_true_iff.
    rewrite Forall_forall in Hall. pose proof (Hall _ Hc) as Hcn.
    destruct (IH c Hcn Hce) as (b' & -> & Hb').
    by rewrite (Hb' k Hspec).
Qed.
End Spread.


(* ===================================================================== *)
(** * [extractLeadingCheckbox], case by case *)
(* ===================================================================== *)

Section Cases.
Variable phrasing : heap → val → bool.

(** The outcome of [extractLeadingCheckbox], by the result of the descent. *)
Lemma extract_cases fuel node (h : heap) :
  match leading_checkbox phrasing fuel h node [] with
  | Found parents control =>
      ∃ spine, on_spine phrasing h (node :: spine) control
        ∧ parents = rev (node :: spine)
        ∧ match extractLeadingCheckbox phrasing fuel node h with
          | Ret (checked, clone) h' =>
              checked = VBool (truthy (member h (member h control f_properties)
                                              f_checked))
              ∧ rebuilt h h' (node :: spine) clone ∧ h ⊆ h'
          | Throw h' =>
              h ⊆ h'
              ∧ ((∃ p h1, last (node :: spine) = Some p ∧ detach p h = Throw h1)
                 ∨ ¬ Forall (λ p, is_Some (children_of h p)) (node :: spine))
          | _ => False
          end
  | NotFound => extractLeadingCheckbox phrasing fuel node h = Ret (VNull, node) h
  | TooDeep => extractLeadingCheckbox phrasing fuel node h = OutOfFuel
  end.
Proof.
  destruct (leading_checkbox phrasing fuel h node []) as [parents control| |] eqn:Hs.
  - apply leading_checkbox_spine in Hs as (spine & Hs & -> & Hlen).
    exists spine. rewrite app_nil_r. split_and!; [done..|].
    by apply extract_found.
  - by apply extract_not_found.
  - by apply extract_too_deep.
Qed.

Lemma extract_frame fuel node (h : heap) :
  match extractLeadingCheckbox phrasing fuel node h with
  | Ret _ h' | Throw h' => h ⊆ h'
  | _ => True
  end.
Proof.
  pose proof (extract_cases fuel node h) as Hc.
  destruct (leading_checkbox phrasing fuel h node []) as [parents control| |].
  - destruct Hc as (spine & _ & _ & Hc).
    destruct (extractLeadingCheckbox phrasing fuel node h) as [[] ?|?| |];
      [by destruct Hc as (_ & _ & ?)|by destruct Hc|done..].
  - by rewrite Hc.
  - by rewrite Hc.
Qed.

(** A successful extraction, with its spine. *)
Lemma extract_checked fuel node (h : heap) checked clone h' :
  extractLeadingCheckbox phrasing fuel node h = Ret (checked, clone) h' →
  checked ≠ VNull →
  ∃ spine control,
    leading_checkbox phrasing fuel h node [] = Found (rev (node :: spine)) control
    ∧ on_spine phrasing h (node :: spine) control
    ∧ checked = VBool (truthy (member h (member h control f_properties)
                                      f_checked))
    ∧ rebuilt h h' (node :: spine) clone ∧ h ⊆ h'.
Proof.
  intros He Hne. pose proof (extract_cases fuel node h) as Hc.
  destruct (leading_checkbox phrasing fuel h node []) as [parents control| |].
  - destruct Hc as (spine & Hs & -> & Hc). rewrite He in Hc.
    exists spine, control. destruct Hc as (? & ? & ?). done.
  - rewrite He in Hc. congruence.
  - rewrite He in Hc. congruence.
Qed.

Lemma rev_cons_drop {A} (l : list A) p above :
  rev l = p :: above → drop (length above) l = [p] ∧ last l = Some p
                       ∧ length l = S (length above).
Proof.
  intros Hrev. apply (f_equal (@rev _)) in Hrev. rewrite rev_involutive in Hrev.
  subst l. cbn [rev]. rewrite last_snoc, length_app. simpl.
  split_and!; [|done|rewrite length_rev; lia].
  rewrite drop_app_length'; [done|]. by rewrite length_rev.
Qed.
End Cases.

(* ===================================================================== *)
(** * The objects an extraction makes *)
(* ===================================================================== *)

Lemma size_dom_insert_le (h : heap) l o :
  size (dom (<[l := o]> h)) ≤ S (size (dom h)).
Proof.
  rewrite dom_insert_L, size_union_alt, size_singleton.
  assert (size (dom h ∖ {[l]}) ≤ size (dom h)); [|lia].
  apply subseteq_size. intros x. rewrite elem_of_difference. tauto.
Qed.

Lemma size_dom_insert_old (h : heap) l o :
  is_Some (h !! l) → size (dom (<[l := o]> h)) = size (dom h).
Proof.
  intros Hl. rewrite dom_insert_L.
  f_equal. apply elem_of_dom in Hl.
  by apply subseteq_union_1_L, singleton_subseteq_l.
Qed.

(** The clean-up makes at most one object. *)
Lemma clean_size (h h' : heap) a after :
  is_Some (h !! a) → clean h a after = Some h' →
  size (dom h') ≤ S (size (dom h)).
Proof.
  intros Ha Hc. unfold clean in Hc.
  pose proof (size_dom_insert_old h a) as Hold.
  repeat case_match; simplify_eq; rewrite ?Hold by done; try lia.
  rewrite size_dom_insert_old.
  - apply size_dom_insert_le.
  - rewrite lookup_insert_ne; [done|].
    intros <-. rewrite fresh_lookup in Ha. by destruct Ha.
Qed.

Lemma detach_size (h : heap) p :
  match detach p h with
  | Ret q h' => size (dom h') ≤ size (dom h) + 3 ∧ is_Some (h' !! q)
                ∧ h !! q = None ∧ h ⊆ h'
  | _ => True
  end.
Proof.
  pose proof (detach_spec h p) as Hs.
  unfold detach in *. destruct (children_of h p) as [es|]; [|done].
  set (a := fresh (dom h)) in *.
  destruct (clean _ a (tail es)) as [h2|] eqn:Hc; [|done].
  destruct Hs as [Hr Hsub].
  apply rebuilt_new in Hr as [? ?]. split_and!; try done.
  pose proof (clean_size _ _ _ _ (ltac:(by rewrite lookup_insert_eq)) Hc) as H2.
  pose proof (size_dom_insert_le h a (OArray (tail es))) as H1.
  pose proof (size_dom_insert_le h2 (fresh (dom h2))
                (OObject (<[f_children := VRef a]> (own_fields h p)))) as H3.
  lia.
Qed.

Lemma link_clone_size (h : heap) p clone :
  match link_clone p clone h with
  | Ret q h' => size (dom h') ≤ size (dom h) + 2 ∧ h !! q = None ∧ h ⊆ h'
  | _ => True
  end.
Proof.
  unfold link_clone. destruct (children_of h p) as [es|]; [|done].
  set (a := fresh (dom h)). set (h1 := <[a := _]> h).
  set (q := fresh (dom h1)).
  assert (h !! a = None) as Ha by apply fresh_lookup.
  assert (h1 !! q = None) as Hq by apply fresh_lookup.
  assert (h ⊆ h1) as Hsub by by apply insert_subseteq.
  split_and!.
  - pose proof (size_dom_insert_le h a (OArray (VRef clone :: tail es))).
    pose proof (size_dom_insert_le h1 q
                  (OObject (<[f_children := VRef a]> (own_fields h p)))).
    fold h1 in H. lia.
  - by eapply lookup_weaken_None.
  - etrans; [done|]. by apply insert_subseteq.
Qed.

(** The loop of [rebuild] makes two objects for each parent, and a text. *)
Lemma rebuild_ancestors_size node rest :
  ∀ clone (h : heap),
    is_Some (h !! node) → clone ≠ node →
    match rebuild node rest clone h with
    | Ret _ h' => size (dom h') ≤ size (dom h) + 2 * length rest
    | _ => True
    end.
Proof.
  induction rest as [|p rest IH]; intros clone h Hnode Hne.
  { simpl. lia. }
  rewrite rebuild_ancestor_step by done. unfold bind.
  pose proof (link_clone_size h p clone) as Hl.
  destruct (link_clone p clone h) as [q h1| | |]; try done.
  destruct Hl as (Hsize & Hq & Hsub).
  assert (is_Some (h1 !! node)) as Hnode1.
  { destruct Hnode as [o Ho]. exists o. by eapply lookup_weaken. }
  assert (q ≠ node) as Hqn.
  { intros ->. destruct Hnode as [o Ho]. congruence. }
  specialize (IH q h1 Hnode1 Hqn).
  destruct (rebuild node rest q h1); try done.
  cbn [length]. lia.
Qed.

Lemma rebuild_size node p rest (h : heap) c :
  first_child h p = VRef c → is_Some (h !! node) →
  match rebuild node (p :: rest) node h with
  | Ret _ h' => size (dom h') ≤ size (dom h) + 2 * length (p :: rest) + 1
  | _ => True
  end.
Proof.
  intros Hc Hnode.
  rewrite (rebuild_innermost_step node p rest h c Hc). unfold bind.
  pose proof (detach_size h p) as Hd.
  destruct (detach p h) as [q h1| | |]; try done.
  destruct Hd as (Hsize & _ & Hq & Hsub).
  assert (is_Some (h1 !! node)) as Hnode1.
  { destruct Hnode as [o Ho]. exists o. by eapply lookup_weaken. }
  assert (q ≠ node) as Hqn.
  { intros ->. destruct Hnode as [o Ho]. congruence. }
  pose proof (rebuild_ancestors_size node rest q h1 Hnode1 Hqn) as Ha.
  destruct (rebuild node rest q h1); try done.
  cbn [length]. lia.
Qed.

Section Size.
Variable phrasing : heap → val → bool.

(** A successful extraction makes two objects for each element of the spine
    and at most one text, and no other. *)
Lemma extract_size fuel node (h : heap) checked clone h' parents control :
  extractLeadingCheckbox phrasing fuel node h = Ret (checked, clone) h' →
  leading_checkbox phrasing fuel h node [] = Found parents control →
  size (dom h') ≤ size (dom h) + 2 * length parents + 1.
Proof.
  unfold extractLeadingCheckbox. rewrite descend_search. intros He Hfound.
  rewrite Hfound in He.
  apply leading_checkbox_spine in Hfound as (spine & Hs & -> & _).
  rewrite app_nil_r in *.
  pose proof (on_spine_first_child phrasing h _ _ Hs) as Hfc.
  assert (is_Some (h !! node)) as Hnode.
  { apply Forall_cons in Hfc as [[c Hc] _]. by eapply first_child_in_heap. }
  apply Forall_rev in Hfc.
  destruct (rev (node :: spine)) as [|p rest] eqn:Hrev.
  { apply (f_equal length) in Hrev. rewrite length_rev in Hrev. done. }
  apply Forall_cons in Hfc as [[c Hc] _].
  pose proof (rebuild_size node p rest h c Hc Hnode) as Hsize.
  unfold bind in He.
  destruct (rebuild node (p :: rest) node h) as [q h1| | |]; try done.
  unfold ret in He. by injection He as <- <- <-.
Qed.
End Size.

Section Throws.
Variable phrasing : heap → val → bool.

(** The extraction throws whenever nothing follows the checkbox in its
    parent: the sliced [children] is empty and line 108 reads
    [children[0].type]. *)
Lemma extract_throws_when_nothing_follows n (h : heap) node p above control :
  leading_checkbox phrasing n h node [] = Found (p :: above) control →
  children_of h p = Some [control] →
  ∃ h', extractLeadingCheckbox phrasing n node h = Throw h'.
Proof.
  intros Hfound Hes.
  pose proof (extract_cases phrasing n node h) as Hc. rewrite Hfound in Hc.
  destruct Hc as (spine & Hs & Hrev & Hc). symmetry in Hrev.
  apply rev_cons_drop in Hrev as (Hdrop & _ & Hlen).
  destruct (extractLeadingCheckbox phrasing n node h)
    as [[checked clone] h'|h'| |]; try done; [|eauto].
  destruct Hc as (_ & Hr & _).
  destruct (rebuilt_descendant h h' _ clone Hr (length above))
    as (q & _ & _ & _ & Hrq); [lia|].
  rewrite Hdrop in Hrq.
  apply rebuilt_innermost_children in Hrq as (es & es' & Hes' & Hcl & _).
  assert (es = [control]) as -> by congruence.
  inversion Hcl.
Qed.
End Throws.

(* ===================================================================== *)
(** * The clone of a hast node is a hast node *)
(* ===================================================================== *)

(** The converse of [hast_node_inv]. *)
Lemma hast_node_intro k (h : heap) l m :
  h !! l = Some (OObject m) →
  (m !! f_children = None ∧ is_element h (VRef l) = false
   ∨ ∃ a es, m !! f_children = Some (VRef a)
             ∧ h !! a = Some (OArray es)
             ∧ Forall (λ c, hast_node k h c = true) es) →
  (∀ p, m !! f_properties = Some (VRef p) → is_Some (h !! p)) →
  (is_text h (VRef l) = true → ∃ s, m !! f_value = Some (VStr s)) →
  hast_node (S k) h (VRef l) = true.
Proof.
  intros Hl Hch Hp Hv. cbn [hast_node]. rewrite Hl.
  rewrite !andb_true_iff. split_and!.
  - destruct Hch as [[-> Hne]|(a & es & -> & -> & Hall)].
    + by rewrite Hne.
    + by apply forallb_Forall.
  - destruct (m !! f_properties) as [[| | | | |p]|] eqn:Hpp; try done.
    apply bool_decide_eq_true. by apply Hp.
  - destruct (is_text h (VRef l)); [|done].
    by destruct Hv as [s ->].
Qed.

Lemma hast_node_weaken n (h h' : heap) :
  h ⊆ h' → ∀ v, hast_node n h v = true → hast_node n h' v = true.
Proof.
  intros Hsub. induction n as [|n IH]; intros v Hn; [done|].
  apply hast_node_inv in Hn as (k & l & m & [= <-] & -> & Hl & Hch & Hp & Hv).
  assert (h' !! l = Some (OObject m)) as Hl' by by eapply lookup_weaken.
  apply (hast_node_intro n h' l m Hl').
  - destruct Hch as [[? Hne]|(a & es & ? & Ha & Hall)].
    + left. split; [done|].
      rewrite (is_element_weaken h h' (VRef l) Hsub); [done|].
      intros ? [= <-]. eauto.
    + right. exists a, es. split_and!; [done|by eapply lookup_weaken|].
      eapply Forall_impl; [done|]. simpl. eauto.
  - intros p Hpp. destruct (Hp p Hpp) as [o Ho].
    exists o. by eapply lookup_weaken.
  - intros Ht. apply Hv.
    unfold is_text in *.
    rewrite (is_str_weaken h h' (VRef l) f_type "text" Hsub) in Ht; [done|].
    intros ? [= <-]. eauto.
Qed.

(** A copy with another [children] (or [value]) is a node as its original. *)
Lemma hast_node_copy k (h h' : heap) p q m a es :
  h ⊆ h' →
  hast_node (S k) h (VRef p) = true →
  h !! p = Some (OObject m) →
  h' !! q = Some (OObject (<[f_children := VRef a]> m)) →
  h' !! a = Some (OArray es) →
  Forall (λ c, hast_node k h' c = true) es →
  hast_node (S k) h' (VRef q) = true.
Proof.
  intros Hsub Hn Hp Hq Ha Hes.
  apply hast_node_inv in Hn as (? & ? & m' & [= <-] & [= <-] & Hp' & _ & Hpr & Hv).
  assert (m' = m) as -> by congruence.
  apply (hast_node_intro k h' q _ Hq).
  - right. exists a, es. split_and!; [apply lookup_insert_eq|done..].
  - intros pr Hpp. rewrite lookup_insert_ne in Hpp by done.
    destruct (Hpr pr Hpp) as [o Ho]. exists o. by eapply lookup_weaken.
  - intros Ht. rewrite lookup_insert_ne by done. apply Hv.
    unfold is_text in *.
    rewrite (member_lookup h' q _ f_type Hq) in Ht.
    rewrite lookup_insert_ne in Ht by done.
    by rewrite (member_lookup h p m f_type Hp).
Qed.

Lemma hast_node_trimmed k (h h' : heap) t t' m s :
  h ⊆ h' →
  hast_node k h (VRef t) = true →
  h !! t = Some (OObject m) →
  h' !! t' = Some (OObject (<[f_value := VStr s]> m)) →
  hast_node k h' (VRef t') = true.
Proof.
  intros Hsub Hn Ht Ht'.
  apply (hast_node_weaken k h h' Hsub) in Hn.
  apply hast_node_inv in Hn as (n & ? & m' & -> & [= <-] & Hl & Hch & Hpr & Hv).
  assert (h' !! t = Some (OObject m)) as Ht2 by by eapply lookup_weaken.
  assert (m' = m) as -> by congruence.
  apply (hast_node_intro n h' t' _ Ht').
  - rewrite lookup_insert_ne by done.
    destruct Hch as [[? Hne]|?]; [|by right].
    left. split; [done|]. unfold is_element in *.
    rewrite (member_lookup h' t' _ f_type Ht'), lookup_insert_ne by done.
    by rewrite (member_lookup h' t m f_type Ht2) in Hne.
  - intros pr Hpp. rewrite lookup_insert_ne in Hpp by done. by apply Hpr.
  - intros _. rewrite lookup_insert_eq. eauto.
Qed.

Section Clone.
Variable phrasing : heap → val → bool.

Lemma cleaned_hast_nodes k (h h' : heap) after es' :
  h ⊆ h' → cleaned h h' after es' →
  Forall (λ c, hast_node k h c = true) after →
  Forall (λ c, hast_node k h' c = true) es'.
Proof.
  intros Hsub Hcl Hall.
  assert (Forall (λ c, hast_node k h' c = true) after) as Hall'.
  { eapply Forall_impl; [done|]. simpl. intros c. by apply hast_node_weaken. }
  destruct Hcl as [t m s rest t' Ht Hty Hv Hs Hnew Ht'| |]; try done.
  - apply Forall_cons in Hall as [Hnt _].
    apply Forall_cons in Hall' as [_ Hrest]. constructor; [|done].
    by eapply hast_node_trimmed.
  - by apply Forall_cons in Hall' as [_ ?].
Qed.

(** The clone of a hast node is a hast node, of the same height. *)
Lemma rebuilt_hast_node (h h' : heap) spine clone :
  rebuilt h h' spine clone →
  ∀ control n p,
    on_spine phrasing h spine control → h ⊆ h' →
    head spine = Some p → hast_node n h (VRef p) = true →
    hast_node n h' (VRef clone) = true.
Proof.
  induction 1 as [p es q a es' Hes Hcl Hq Ha Hq' Ha'
                 |p w spine es q qw a Hr IH Hes Hq Ha Hq' Ha'];
    intros control n p' Hs Hsub [= <-] Hn.
  - pose proof Hn as (k & ? & m & -> & [= <-] & Hp & Hch & _)%hast_node_inv.
    apply children_of_Some in Hes as (m' & a0 & Hp' & Hk & Ha0).
    assert (m' = m) as -> by congruence.
    destruct Hch as [[? _]|(a1 & es1 & Hk1 & Ha1 & Hall)]; [congruence|].
    assert (a1 = a0) as -> by congruence.
    assert (es1 = es) as -> by congruence.
    unfold own_fields in Hq'. rewrite Hp in Hq'.
    eapply hast_node_copy; eauto.
    eapply cleaned_hast_nodes; eauto.
    destruct es; [constructor|]. by apply Forall_cons in Hall as [_ ?].
  - pose proof Hn as (k & ? & m & -> & [= <-] & Hp & Hch & _)%hast_node_inv.
    apply children_of_Some in Hes as (m' & a0 & Hp' & Hk & Ha0).
    assert (m' = m) as -> by congruence.
    destruct Hch as [[? _]|(a1 & es1 & Hk1 & Ha1 & Hall)]; [congruence|].
    assert (a1 = a0) as -> by congruence.
    assert (es1 = es) as -> by congruence.
    unfold own_fields in Hq'. rewrite Hp in Hq'.
    inversion Hs as [|? ? ? ? Hfc Hcb Hw Hs']; subst.
    destruct (hast_node_first_child _ _ _ _ Hn Hfc)
      as (k' & es2 & [= <-] & Hes2 & Hall2).
    apply Forall_cons in Hall2 as [Hwn Hrest].
    apply children_of_Some in Hes2 as (m2 & a2 & Hp2 & Hk2 & Ha2).
    assert (m2 = m) as -> by congruence.
    assert (a2 = a0) as -> by congruence.
    assert (es = VRef w :: es2) as -> by congruence.
    eapply hast_node_copy; eauto.
    constructor.
    + eapply IH; eauto.
    + eapply Forall_impl; [done|]. simpl. intros c. by apply hast_node_weaken.
Qed.

Lemma rebuilt_is_element (h h' : heap) spine clone p :
  rebuilt h h' spine clone → head spine = Some p →
  is_element h' (VRef clone) = is_element h (VRef p).
Proof.
  intros Hr Hp.
  destruct (rebuilt_fields _ _ _ _ Hr) as (p' & a & Hp' & Hq & _).
  assert (p' = p) as -> by congruence.
  unfold is_element. rewrite (member_lookup h' clone _ f_type Hq).
  by rewrite lookup_insert_ne.
Qed.
End Clone.

Section Total.
Variable phrasing : heap → val → bool.

Lemma spread_scan_returns (rec : val → M bool) (h : heap) es :
  Forall (λ c, ∃ l, c = VRef l) es →
  (∀ c, c ∈ es → is_flow phrasing h c = true → ∃ b, rec c h = Ret b h) →
  ∀ seen, ∃ b, spread_scan phrasing rec es seen h = Ret b h.
Proof.
  induction es as [|c es IH]; intros Hobj Hrec seen; [by exists false|].
  apply Forall_cons in Hobj as [[l ->] Hobj].
  assert (∀ c, c ∈ es → is_flow phrasing h c = true → ∃ b, rec c h = Ret b h)
    as Hrec' by (intros c Hc; apply Hrec; by right).
  cbn [spread_scan]. unfold bind at 1. rewrite spread_step_object.
  destruct (is_flow phrasing h (VRef l)) eqn:Hflow; [|by apply IH].
  destruct (has_tag h (VRef l) "p" || seen); [by exists true|].
  destruct (Hrec (VRef l)) as [sub Hsub]; [by left|done|].
  unfold bind. rewrite Hsub. destruct sub; [by exists true|].
  by apply IH.
Qed.

(** [spreadout] returns on a hast element. *)
Lemma spreadout_returns n (h : heap) :
  ∀ l, hast_node n h (VRef l) = true → is_element h (VRef l) = true →
    ∃ b, spreadout phrasing n (VRef l) h = Ret b h.
Proof.
  induction n as [|n IH]; intros l Hn He; [done|].
  apply hast_node_inv in Hn as (? & ? & m & [= <-] & [= <-] & Hl & Hch & _).
  destruct Hch as [[_ Hne]|(a & es & Hk & Ha & Hall)]; [congruence|].
  cbn [spreadout]. rewrite (member_lookup h l m f_children Hl), Hk.
  simpl. rewrite Ha.
  apply spread_scan_returns.
  - eapply Forall_impl; [done|]. simpl.
    intros c (? & l' & ? & _ & -> & _)%hast_node_inv. eauto.
  - intros c Hc [Hce _]%andb_true_iff.
    rewrite Forall_forall in Hall. pose proof (Hall c Hc) as Hcn.
    pose proof Hce as (l' & ? & -> & _)%is_str_member_object.
    by apply IH.
Qed.

(** What [extractLeadingCheckbox] returns for a hast node is a hast node. *)
Lemma extract_hast_node n (h : heap) node checked clone h' :
  hast_node n h (VRef node) = true →
  extractLeadingCheckbox phrasing n node h = Ret (checked, clone) h' →
  hast_node n h' (VRef clone) = true
  ∧ is_element h' (VRef clone) = is_element h (VRef node).
Proof.
  intros Hn He.
  pose proof (extract_cases phrasing n node h) as Hc.
  destruct (leading_checkbox phrasing n h node []) as [parents control| |].
  - destruct Hc as (spine & Hs & _ & Hc). rewrite He in Hc.
    destruct Hc as (_ & Hr & Hsub). split.
    + by eapply rebuilt_hast_node.
    + by eapply rebuilt_is_element.
  - rewrite He in Hc. by injection Hc as _ -> ->.
  - rewrite He in Hc. done.
Qed.
End Total.

(* ===================================================================== *)
(** * [li] *)
(* ===================================================================== *)

(** The steps of [li] when none of them throws: the calls to [state] are
    [all] on the clone, [toFlow] on its result and one [patch] with the clone
    and the new list item, in this order. *)
Lemma li_steps (phrasing : heap → val → bool) (state : State) fuel node
    (h : heap) calls checked clone h1 spread nodes h2 children h3 h4 :
  extractLeadingCheckbox phrasing fuel node h = Ret (checked, clone) h1 →
  spreadout phrasing fuel (VRef clone) h1 = Ret spread h1 →
  all state clone h1 = Ret nodes h2 →
  toFlow state nodes h2 = Ret children h3 →
  patch state clone (fresh (dom h3))
    (<[fresh (dom h3) := listItem spread checked children]> h3) = Ret tt h4 →
  li phrasing state fuel node (h, calls)
  = Ret (fresh (dom h3))
        (h4, calls ++ [CallAll clone; CallToFlow nodes;
                       CallPatch clone (fresh (dom h3))]).
Proof.
  intros He Hs Ha Hf Hp. unfold li, bind, lift, log, alloc, ret. simpl.
  rewrite He. simpl. rewrite Hs. simpl. rewrite Ha. simpl. rewrite Hf. simpl.
  rewrite Hp. by rewrite <- !app_assoc.
Qed.

(** [li] throws when [extractLeadingCheckbox] does, before any call. *)
Lemma li_throws (phrasing : heap → val → bool) (state : State) fuel node
    (h : heap) calls h' :
  extractLeadingCheckbox phrasing fuel node h = Throw h' →
  li phrasing state fuel node (h, calls) = Throw (h', calls).
Proof. intros He. unfold li, bind, lift. simpl. by rewrite He. Qed.

(** [li] on a hast element: when the extraction and the methods of [state]
    return, [li] returns a new list item, its [spread] the answer of
    [spreadout] on the clone and its [checked] the one extracted; [all] was
    called on the clone, [toFlow] on what [all] returned, and [patch] once,
    on the clone and the list item. *)
Lemma li_on_hast_element (phrasing : heap → val → bool) (state : State) n
    (h : heap) node calls checked clone h1 :
  hast_node n h (VRef node) = true →
  is_element h (VRef node) = true →
  extractLeadingCheckbox phrasing n node h = Ret (checked, clone) h1 →
  ∃ spread,
    spreadout phrasing n (VRef clone) h1 = Ret spread h1
    ∧ ∀ nodes h2 children h3 h4,
        all state clone h1 = Ret nodes h2 →
        toFlow state nodes h2 = Ret children h3 →
        patch state clone (fresh (dom h3))
          (<[fresh (dom h3) := listItem spread checked children]> h3)
        = Ret tt h4 →
        li phrasing state n node (h, calls)
        = Ret (fresh (dom h3))
              (h4, calls ++ [CallAll clone; CallToFlow nodes;
                             CallPatch clone (fresh (dom h3))]).
Proof.
  intros Hn Hel He.
  destruct (extract_hast_node phrasing _ _ _ _ _ _ Hn He) as [Hn' Hel'].
  rewrite Hel in Hel'.
  destruct (spreadout_returns phrasing n h1 clone Hn' Hel') as [spread Hs].
  exists spread. split; [done|].
  intros nodes h2 children h3 h4 Ha Hf Hp.
  by eapply li_steps.
Qed.

Lemma sample_phrasing_paragraph (h : heap) v :
  has_tag h v "p" = true → sample_phrasing h v = false.
Proof.
  unfold has_tag, is_str, sample_phrasing.
  intros ->%bool_decide_eq_true. vm_compute. reflexivity.
Qed.

(* ===================================================================== *)
(** * When the extraction throws *)
(* ===================================================================== *)

Lemma is_text_insert_array (h : heap) a es c :
  h !! a = None → is_text (<[a := OArray es]> h) c = is_text h c.
Proof.
  intros Ha. destruct c as [| | | | |l]; try done.
  unfold is_text, member. destruct (decide (a = l)) as [->|Hne].
  - unfold own_fields. by rewrite lookup_insert_eq, Ha.
  - by rewrite own_fields_insert_ne.
Qed.

(** The first iteration of the loop of [rebuild] throws in the cases of
    [clean_up_throws], and in no other. *)
Lemma detach_outcome (h : heap) p :
  match detach p h with
  | Ret _ _ => clean_up_throws h p = false
  | Throw _ => clean_up_throws h p = true
  | _ => False
  end.
Proof.
  unfold detach, clean_up_throws.
  destruct (children_of h p) as [[|x [|c rest]]|]; try done.
  cbn [tail]. set (a := fresh (dom h)).
  assert (h !! a = None) as Ha by apply fresh_lookup.
  unfold clean.
  destruct c as [| |b|z|s|l]; try done.
  rewrite is_text_insert_array by done.
  destruct (is_text h (VRef l)) eqn:Ht; [|done].
  rewrite (member_weaken h (<[a := OArray (VRef l :: rest)]> h));
    [|by apply insert_subseteq|].
  2: { apply is_str_member_object in Ht as (? & m & [= <-] & Hl & _). eauto. }
  destruct (member h (VRef l) f_value) as [| | | |s|]; try done.
  by destruct (trim_start s).
Qed.

Lemma rebuilt_children_arrays (h h' : heap) spine q :
  rebuilt h h' spine q → Forall (λ p, has_children_array h p = true) spine.
Proof.
  induction 1 as [p es q a es' Hes|p w spine es q qw a Hr IH Hes].
  - constructor; [|constructor]. unfold has_children_array. by rewrite Hes.
  - constructor; [|done]. unfold has_children_array. by rewrite Hes.
Qed.

Section Outcome.
Variable phrasing : heap → val → bool.

(** The outcome of [extractLeadingCheckbox] when the descent finds a
    checkbox. *)
Lemma extract_outcome n (h : heap) node parents control :
  leading_checkbox phrasing n h node [] = Found parents control →
  match extractLeadingCheckbox phrasing n node h with
  | Ret (checked, clone) h' =>
      extraction_throws h parents = false
      ∧ checked = VBool (truthy (member h (member h control f_properties)
                                        f_checked))
  | Throw h' => extraction_throws h parents = true
  | _ => False
  end.
Proof.
  intros Hfound. unfold extractLeadingCheckbox. rewrite descend_search, Hfound.
  apply leading_checkbox_spine in Hfound as (spine & Hs & -> & _).
  rewrite app_nil_r.
  pose proof (on_spine_first_child phrasing h _ _ Hs) as Hfc.
  assert (is_Some (h !! node)) as Hnode.
  { apply Forall_cons in Hfc as [[c Hc] _]. by eapply first_child_in_heap. }
  apply Forall_rev in Hfc.
  destruct (rev (node :: spine)) as [|p above] eqn:Hrev.
  { apply (f_equal length) in Hrev. rewrite length_rev in Hrev. done. }
  apply Forall_cons in Hfc as [[c Hc] Hfc].
  unfold bind at 1. rewrite (rebuild_innermost_step node p above h c Hc).
  unfold bind at 1.
  pose proof (detach_outcome h p) as Hd. pose proof (detach_spec h p) as Hds.
  destruct (detach p h) as [q h1|h1| |]; try done.
  - destruct Hds as [Hr Hsub].
    pose proof (rebuild_ancestors node above p [] q h h1 Hr Hsub Hnode Hfc) as Ha.
    destruct (rebuild node above q h1) as [q' h'|h'| |]; try done.
    + destruct Ha as [Hr' _]. unfold ret. split; [|done].
      unfold extraction_throws. rewrite Hd, orb_false_r. apply negb_false_iff.
      apply forallb_Forall. apply rebuilt_children_arrays in Hr'.
      apply Forall_app in Hr' as [Hr1 Hr2].
      apply Forall_rev in Hr1. rewrite rev_involutive in Hr1.
      constructor; [by apply Forall_cons in Hr2 as [? _]|done].
    + destruct Ha as [_ Hno]. unfold extraction_throws.
      apply orb_true_iff. left. apply negb_true_iff, not_true_is_false.
      intros Hall%forallb_Forall. apply Hno.
      apply Forall_cons in Hall as [_ Hall].
      eapply Forall_impl; [done|]. simpl. unfold has_children_array.
      intros x. destruct (children_of h x); [eauto|done].
  - unfold extraction_throws. by rewrite Hd, orb_true_r.
Qed.

(** In a hast node, it throws when nothing follows the checkbox, and only
    then. *)
Lemma hast_extraction_throws n (h : heap) node p above control :
  hast_node n h (VRef node) = true →
  leading_checkbox phrasing n h node [] = Found (p :: above) control →
  ∃ rest, children_of h p = Some (control :: rest)
    ∧ extraction_throws h (p :: above)
      = match rest with [] => true | _ :: _ => false end.
Proof.
  intros Hn Hfound.
  apply leading_checkbox_spine in Hfound as (spine & Hs & Hrev & _).
  rewrite app_nil_r in Hrev.
  pose proof (hast_node_spine phrasing n h _ _ Hs _ _ eq_refl Hn) as Hall.
  pose proof (on_spine_first_child phrasing h _ _ Hs) as Hfc.
  destruct (on_spine_last phrasing h _ _ Hs) as (p' & Hlast & Hfp & Hcb).
  assert (Forall (λ x, has_children_array h x = true) (p :: above)) as Harr.
  { rewrite Hrev. apply Forall_rev.
    rewrite Forall_forall in Hall, Hfc. apply Forall_forall.
    intros x Hx. destruct (Hfc x Hx) as [c Hc].
    destruct (hast_node_children n h x c (Hall x Hx) Hc) as [es Hes].
    unfold has_children_array. by rewrite Hes. }
  symmetry in Hrev. apply rev_cons_drop in Hrev as (_ & Hlast' & _).
  assert (p' = p) as -> by congruence.
  assert (hast_node n h (VRef p) = true) as Hp.
  { rewrite Forall_forall in Hall. by apply Hall, last_Some_elem_of. }
  destruct (is_checkbox_ref h control Hcb) as (c & -> & _).
  destruct (hast_node_first_child n h p c Hp Hfp) as (k & es & -> & Hes & Hnodes).
  exists es. split; [done|].
  unfold extraction_throws.
  apply forallb_Forall in Harr. rewrite Harr. cbn [negb orb].
  unfold clean_up_throws. rewrite Hes.
  destruct es as [|c2 rest]; [done|].
  apply Forall_cons in Hnodes as [_ [Hc2 _]%Forall_cons].
  apply hast_node_inv in Hc2 as (k' & l2 & m & _ & -> & Hl2 & _ & _ & Hv).
  destruct (is_text h (VRef l2)) eqn:Ht; [|done].
  destruct (Hv eq_refl) as [s Hs2].
  by rewrite (member_lookup h l2 m f_value Hl2), Hs2.
Qed.
End Outcome.

(* ===================================================================== *)
(** * The copies and their originals *)
(* ===================================================================== *)

Section Copies.
Variable phrasing : heap → val → bool.

(** The elements of the spine are reached from its first by the first
    children. *)
Lemma on_spine_descendant (h : heap) spine control :
  on_spine phrasing h spine control →
  ∀ k p, spine !! k = Some p →
    ∃ r, head spine = Some r ∧ descendant_at h k r = Some p.
Proof.
  induction 1 as [p control Hfc Hcb|p w spine control Hfc Hcb Hw Hs IH];
    intros k x Hk.
  - destruct k as [|k]; [|done]. injection Hk as <-. by exists p.
  - destruct k as [|k].
    + injection Hk as <-. by exists p.
    + destruct (IH k x Hk) as (r & [= <-] & Hd).
      exists p. split; [done|]. cbn [descendant_at]. by rewrite Hfc.
Qed.

(** A copy has the properties of its original, but [children]. *)
Lemma rebuilt_members (h h' : heap) spine clone :
  rebuilt h h' spine clone →
  ∀ k p, spine !! k = Some p →
    ∃ q, descendant_at h' k clone = Some q
      ∧ ∀ key, key ≠ f_children →
          member h' (VRef q) key = member h (VRef p) key.
Proof.
  intros Hr k p Hk.
  destruct (rebuilt_descendant h h' spine clone Hr k) as (q & Hq & _ & _ & Hrq).
  { by eapply lookup_lt_Some. }
  exists q. split; [done|]. intros key Hne.
  destruct (rebuilt_fields _ _ _ _ Hrq) as (p' & a & Hp' & Hq' & _).
  rewrite head_lookup, lookup_drop, Nat.add_0_r in Hp'.
  assert (p' = p) as -> by congruence.
  rewrite (member_lookup h' q _ key Hq'). by rewrite lookup_insert_ne.
Qed.
End Copies.

(* ===================================================================== *)
(** * When [spreadout] answers [true] *)
(* ===================================================================== *)

Section SpreadOnly.
Variable phrasing : heap → val → bool.

Lemma spread_step_primitive (rec : val → M bool) (h : heap) c seen :
  (∀ l, c ≠ VRef l) →
  is_flow phrasing h c = false
  ∧ is_element h c = false
  ∧ match spread_step phrasing rec c seen h with
    | Ret r h' => r = (None, seen) ∧ h' = h
    | Throw _ => True
    | _ => False
    end.
Proof.
  intros Hc. destruct c as [| |b|z|s|l]; try done.
  by destruct (Hc l).
Qed.

Lemma spread_scan_true (rec : val → M bool) n (h : heap) es :
  (∀ c b h', rec c h = Ret b h' →
     h' = h ∧ (b = true → ∃ l, c = VRef l ∧ spread_spec phrasing n h l = true)) →
  ∀ seen h', spread_scan phrasing rec es seen h = Ret true h' →
    existsb (λ c, is_element h c && has_tag h c "p") es = true
    ∨ 2 ≤ length (filter (λ c, is_flow phrasing h c = true) es)
          + (if seen then 1 else 0)
    ∨ ∃ l, filter (λ c, is_flow phrasing h c = true) es = [VRef l]
           ∧ spread_spec phrasing n h l = true.
Proof.
  intros Hrec. induction es as [|c es IH]; intros seen h' Hscan; [done|].
  cbn [spread_scan] in Hscan. unfold bind at 1 in Hscan.
  assert (∀ seen', spread_scan phrasing rec es seen' h = Ret true h' →
          is_flow phrasing h c = false →
          seen' = seen →
          existsb (λ c, is_element h c && has_tag h c "p") (c :: es) = true
          ∨ 2 ≤ length (filter (λ c, is_flow phrasing h c = true) (c :: es))
                + (if seen then 1 else 0)
          ∨ ∃ l, filter (λ c, is_flow phrasing h c = true) (c :: es) = [VRef l]
                 ∧ spread_spec phrasing n h l = true) as Hskip.
  { intros seen' Hs Hnf ->. rewrite filter_cons_False by (by rewrite Hnf).
    destruct (IH _ _ Hs) as [Hex|[Hlen|Hone]]; [left|by right; left|by right; right].
    cbn [existsb]. by rewrite Hex, orb_true_r. }
  assert ((∃ l, c = VRef l) ∨ ∀ l, c ≠ VRef l) as [[l ->]|Hprim]
    by (destruct c; eauto).
  - rewrite spread_step_object in Hscan.
    destruct (is_flow phrasing h (VRef l)) eqn:Hflow; [|by eapply Hskip].
    rewrite filter_cons_True by done.
    pose proof Hflow as [He _]%andb_true_iff.
    destruct (has_tag h (VRef l) "p") eqn:Hp.
    { left. cbn [existsb]. by rewrite He, Hp. }
    destruct seen.
    { right. left. simpl. lia. }
    cbn [orb] in Hscan. unfold bind at 1 in Hscan.
    destruct (rec (VRef l) h) as [sub h1|h1| |] eqn:Hsub; try done.
    destruct (Hrec _ _ _ Hsub) as [-> Htrue].
    destruct sub.
    + destruct (Htrue eq_refl) as (l' & [= <-] & Hspec).
      destruct (filter (λ c, is_flow phrasing h c = true) es) as [|c' rest'] eqn:Hf.
      * right. right. by exists l.
      * right. left. simpl. lia.
    + unfold ret in Hscan.
      destruct (IH _ _ Hscan) as [Hex|[Hlen|(l' & Hf & _)]].
      * left. cbn [existsb]. by rewrite Hex, orb_true_r.
      * right. left. simpl in *. lia.
      * right. left. rewrite Hf. simpl. lia.
  - destruct (spread_step_primitive rec h c seen Hprim) as (Hnf & _ & Hstep).
    destruct (spread_step phrasing rec c seen h) as [r h1|h1| |]; try done.
    destruct Hstep as [-> ->]. by eapply Hskip.
Qed.

(** [spreadout] answers [true] in the three cases only. *)
Lemma spreadout_true n :
  ∀ l (h h' : heap),
    spreadout phrasing n (VRef l) h = Ret true h' →
    spread_spec phrasing n h l = true.
Proof.
  induction n as [|n IH]; intros l h h' Hs; [done|].
  cbn [spreadout] in Hs. cbn [spread_spec]. unfold children_of.
  destruct (member h (VRef l) f_children) as [| | | | |a]; try done.
  destruct (h !! a) as [[|es]|]; try done.
  cbn [default from_option id].
  apply (spread_scan_true _ n) in Hs.
  - destruct Hs as [Hex|[Hlen|(c & Hf & Hspec)]].
    + by rewrite Hex.
    + apply orb_true_iff. left. apply orb_true_iff. right.
      apply Nat.leb_le. lia.
    + rewrite Hf, Hspec. by rewrite orb_true_r.
  - intros c b h1 Hc.
    pose proof (spreadout_heap phrasing n c h) as Hh. rewrite Hc in Hh.
    split; [done|]. intros ->. subst h1.
    destruct c as [| | | | |l']; try (by destruct n).
    exists l'. split; [done|]. by eapply IH.
Qed.
End SpreadOnly.

Section SpreadExact.
Variable phrasing : heap → val → bool.
Hypothesis paragraph_is_flow :
  ∀ (h : heap) v, has_tag h v "p" = true → phrasing h v = false.

Lemma spread_scan_false (rec : val → M bool) n (h : heap) es :
  (∀ l h', rec (VRef l) h = Ret false h' →
     h' = h ∧ spread_spec phrasing n h l = false) →
  (∀ c b h', rec c h = Ret b h' → h' = h) →
  ∀ seen h', spread_scan phrasing rec es seen h = Ret false h' →
    existsb (λ c, is_element h c && has_tag h c "p") es = false
    ∧ (filter (λ c, is_flow phrasing h c = true) es = []
       ∨ seen = false
         ∧ ∃ l, filter (λ c, is_flow phrasing h c = true) es = [VRef l]
                ∧ spread_spec phrasing n h l = false).
Proof.
  intros Hrec Hheap. induction es as [|c es IH]; intros seen h' Hscan.
  { split; [done|by left]. }
  cbn [spread_scan] in Hscan. unfold bind at 1 in Hscan.
  assert ((∃ l, c = VRef l) ∨ ∀ l, c ≠ VRef l) as [[l ->]|Hprim]
    by (destruct c; eauto).
  - rewrite spread_step_object in Hscan.
    destruct (is_flow phrasing h (VRef l)) eqn:Hflow.
    + rewrite filter_cons_True by done.
      destruct (has_tag h (VRef l) "p") eqn:Hp; [discriminate Hscan|].
      destruct seen; [discriminate Hscan|].
      cbn [orb] in Hscan. unfold bind at 1 in Hscan.
      destruct (rec (VRef l) h) as [sub h1|h1| |] eqn:Hsub; try done.
      destruct sub; [discriminate Hscan|].
      destruct (Hrec _ _ Hsub) as [-> Hspec]. unfold ret in Hscan.
      destruct (IH _ _ Hscan) as [Hex [Hf|[? _]]]; [|done].
      split.
      * cbn [existsb]. by rewrite Hp, andb_false_r.
      * right. split; [done|]. exists l. by rewrite Hf.
    + rewrite filter_cons_False by (by rewrite Hflow).
      destruct (IH _ _ Hscan) as [Hex Hf]. split; [|done].
      cbn [existsb]. rewrite Hex, orb_false_r.
      destruct (has_tag h (VRef l) "p") eqn:Hp; [|by rewrite andb_false_r].
      unfold is_flow in Hflow. rewrite (paragraph_is_flow _ _ Hp) in Hflow.
      cbn [negb] in Hflow. by rewrite andb_true_r in Hflow |- *.
  - destruct (spread_step_primitive phrasing rec h c seen Hprim)
      as (Hnf & Hne & Hstep).
    destruct (spread_step phrasing rec c seen h) as [r h1|h1| |]; try done.
    destruct Hstep as [-> ->].
    rewrite filter_cons_False by (by rewrite Hnf).
    destruct (IH _ _ Hscan) as [Hex Hf]. split; [|done].
    cbn [existsb]. by rewrite Hne, Hex.
Qed.

(** [spreadout] answers [false] in none of the three cases. *)
Lemma spreadout_false n :
  ∀ l (h h' : heap),
    spreadout phrasing n (VRef l) h = Ret false h' →
    spread_spec phrasing n h l = false.
Proof.
  induction n as [|n IH]; intros l h h' Hs; [done|].
  cbn [spreadout] in Hs. cbn [spread_spec]. unfold children_of.
  destruct (member h (VRef l) f_children) as [| | | | |a]; try done.
  destruct (h !! a) as [[|es]|]; try done.
  cbn [default from_option id].
  apply (spread_scan_false _ n) in Hs.
  - destruct Hs as [-> [->|(_ & c & -> & ->)]]; done.
  - intros c h1 Hc.
    pose proof (spreadout_heap phrasing n (VRef c) h) as Hh. rewrite Hc in Hh.
    split; [done|]. subst h1. by eapply IH.
  - intros c b h1 Hc.
    pose proof (spreadout_heap phrasing n c h) as Hh. by rewrite Hc in Hh.
Qed.
End SpreadExact.

(* ===================================================================== *)
(** * The properties of the specification *)
(* ===================================================================== *)

Local Open Scope positive_scope.

(** [li] on [<li><em><input type="checkbox" checked> done</em><b>!</b></li>]:
    a list item that is checked and not spread, and the three calls. *)
Example li_on_task :
  ∃ result h',
    li sample_phrasing sample_state 4 13 (item_task, [])
    = Ret result (h', [CallAll 18; CallToFlow (VRef 17); CallPatch 18 result])
    ∧ h' !! result = Some (listItem false (VBool true) (VRef 17)).
Proof.
  assert (match li sample_phrasing sample_state 4 13 (item_task, []) with
          | Ret result (h', calls) =>
              bool_decide (calls = [CallAll 18; CallToFlow (VRef 17);
                                    CallPatch 18 result])
              && bool_decide (h' !! result
                              = Some (listItem false (VBool true) (VRef 17)))
          | _ => false
          end = true) as H by by_computation.
  destruct (li sample_phrasing sample_state 4 13 (item_task, []))
    as [result [h' calls]|?| |]; try discriminate H.
  apply andb_true_iff in H as [->%bool_decide_eq_true H2%bool_decide_eq_true].
  by exists result, h'.
Qed.

(** C1.  The specification has the checkbox extraction total: a
    [{checked, clone}] is returned for every element and nothing is ever
    thrown.  [extractLeadingCheckbox] throws on
    [<li><input type="checkbox"></li>]: the checkbox is found, the slice of
    the children of the item is empty, and line 108 reads [.type] of
    [children[0]], which is [undefined].  Whatever the iteration bound, the
    call ends in a TypeError, the heap holding the new empty array next to
    the input. *)
Theorem extract_throws_on_lone_checkbox :
  ∀ fuel,
    extractLeadingCheckbox sample_phrasing (S fuel) 6 item_unchecked
    = Throw (<[7 := OArray []]> item_unchecked).
Proof. intros fuel. by_computation. Qed.

(** C2.  The specification has [extract] return [checked = true] and a clone
    without children on [<li><input type="checkbox" checked></li>].
    [extractLeadingCheckbox] returns nothing there: it throws the TypeError
    of line 108, as on every item in which nothing follows the checkbox. *)
Theorem extract_throws_on_checked_checkbox :
  ∀ fuel,
    extractLeadingCheckbox sample_phrasing (S fuel) 6 item_checked
    = Throw (<[7 := OArray []]> item_checked).
Proof. intros fuel. by_computation. Qed.

(** C3.  When the descent finds a checkbox and a text follows it in its
    parent [p], every clone the extraction returns has, for the copy [q] of
    [p] (reached from the clone by as many first-child steps as there are
    elements above [p]), these children: what followed the text, when
    nothing is left of the text once its leading white space is trimmed; and
    else a new text, which is the old one with the trimmed value, followed
    by what followed the text.  In a hast node the extraction does return,
    with a boolean [checked].  On
    [<li><p><input type="checkbox"> text</p></li>], [checked] is [false] and
    the clone is structurally [<li><p>text</p></li>]. *)
Theorem text_after_checkbox_is_trimmed (phrasing : heap → val → bool) :
  (∀ n (h : heap) node p above control t s rest,
     leading_checkbox phrasing n h node [] = Found (p :: above) control →
     children_of h p = Some (control :: VRef t :: rest) →
     is_text h (VRef t) = true →
     member h (VRef t) f_value = VStr s →
     (hast_node n h (VRef node) = true →
      ∃ checked clone h',
        extractLeadingCheckbox phrasing n node h = Ret (VBool checked, clone) h')
     ∧ ∀ checked clone h',
         extractLeadingCheckbox phrasing n node h = Ret (checked, clone) h' →
         ∃ q, descendant_at h' (length above) clone = Some q
              ∧ if bool_decide (trim_start s = [])
                then children_of h' q = Some rest
                else ∃ t', children_of h' q = Some (VRef t' :: rest)
                       ∧ h !! t' = None
                       ∧ h' !! t'
                         = Some (OObject (<[f_value := VStr (trim_start s)]>
                                          (own_fields h t))))
  ∧ (∃ clone h',
       extractLeadingCheckbox sample_phrasing 2 9 item_paragraph
       = Ret (VBool false, clone) h'
       ∧ deep_equal 8 h' (VRef clone) item_paragraph_text (VRef 6) = true).
Proof.
  split.
  - intros n h node p above control t s rest Hfound Hes Ht Hv.
    pose proof (extract_cases phrasing n node h) as Hc. rewrite Hfound in Hc.
    destruct Hc as (spine & Hs & Hrev & Hc). symmetry in Hrev.
    apply rev_cons_drop in Hrev as (Hdrop & Hlast & Hlen).
    pose proof Ht as (? & m & [= <-] & Hmt & Hty)%is_str_member_object.
    assert (m !! f_value = Some (VStr s)) as Hmv.
    { rewrite (member_lookup h t m f_value Hmt) in Hv.
      by destruct (m !! f_value); simplify_eq/=. }
    split.
    + (* the extraction returns *)
      intros Hn.
      destruct (extractLeadingCheckbox phrasing n node h)
        as [[checked clone] h'|h'| |]; try done.
      { destruct Hc as (-> & _). eauto. }
      exfalso. destruct Hc as [_ [(p' & h1 & Hp' & Hthrow)|Hno]].
      * assert (p' = p) as -> by congruence.
        unfold detach in Hthrow. rewrite Hes in Hthrow. cbn [tail] in Hthrow.
        set (a := fresh (dom h)) in *.
        assert (h !! a = None) as Ha by apply fresh_lookup.
        unfold clean in Hthrow.
        rewrite (is_text_insert_new h a _ _ Ha Ht) in Hthrow.
        rewrite (member_weaken h (<[a := OArray (VRef t :: rest)]> h)) in Hthrow;
          [|by apply insert_subseteq|by eauto].
        rewrite Hv in Hthrow. by destruct (trim_start s).
      * apply Hno.
        pose proof (hast_node_spine phrasing n h _ _ Hs _ _ eq_refl Hn) as Hall.
        pose proof (on_spine_first_child phrasing h _ _ Hs) as Hfc.
        rewrite Forall_forall in Hall, Hfc. apply Forall_forall.
        intros x Hx. destruct (Hfc x Hx) as [c Hc'].
        eapply hast_node_children; [by apply Hall|done].
    + (* what it returns *)
      intros checked clone h' He. rewrite He in Hc.
      destruct Hc as (_ & Hr & Hsub).
      destruct (rebuilt_descendant h h' _ clone Hr (length above))
        as (q & Hq & _ & _ & Hrq); [lia|].
      rewrite Hdrop in Hrq.
      apply rebuilt_innermost_children in Hrq as (es & es' & Hes' & Hcl & Hq' & _).
      assert (es = control :: VRef t :: rest) as -> by congruence.
      exists q. split; [done|].
      cbn [tail] in Hcl. rewrite Hq'.
      inversion Hcl as [? m' s' ? t' Ht' _ Hv' Hs' Hnew Hnew'
                       |? m' s' ? Ht' _ Hv' Hs'|? ? Hnt]; subst.
      * assert (m' = m) as -> by congruence.
        assert (s' = s) as -> by congruence.
        rewrite bool_decide_eq_false_2 by done.
        exists t'. split_and!; try done.
        unfold own_fields. by rewrite Hmt.
      * assert (m' = m) as -> by congruence.
        assert (s' = s) as -> by congruence.
        by rewrite bool_decide_eq_true_2.
      * congruence.
  - assert (match extractLeadingCheckbox sample_phrasing 2 9 item_paragraph with
            | Ret (VBool false, clone) h' =>
                deep_equal 8 h' (VRef clone) item_paragraph_text (VRef 6)
            | _ => false
            end = true) as H by by_computation.
    destruct (extractLeadingCheckbox sample_phrasing 2 9 item_paragraph)
      as [[checked clone] h'|?| |]; try discriminate H.
    destruct checked as [| |[]| | |]; try discriminate H.
    by exists clone, h'.
Qed.

Lemma text_after_checkbox_is_trimmed_witness :
  leading_checkbox sample_phrasing 4 item_task 13 [] = Found [7; 13] (VRef 4)
  ∧ children_of item_task 7 = Some [VRef 4; VRef 5]
  ∧ is_text item_task (VRef 5) = true
  ∧ member item_task (VRef 5) f_value = VStr (js " done")
  ∧ hast_node 4 item_task (VRef 13) = true
  ∧ ∃ checked clone h',
      extractLeadingCheckbox sample_phrasing 4 13 item_task
      = Ret (VBool checked, clone) h'
      ∧ ∃ q, descendant_at h' 1 clone = Some q
             ∧ ∃ t', children_of h' q = Some [VRef t']
                     ∧ item_task !! t' = None
                     ∧ h' !! t'
                       = Some (OObject (<[f_value := VStr (js "done")]>
                                        (own_fields item_task 5))).
Proof.
  assert (leading_checkbox sample_phrasing 4 item_task 13 []
          = Found [7; 13] (VRef 4)) as H1 by by_computation.
  assert (children_of item_task 7 = Some [VRef 4; VRef 5]) as H2
    by by_computation.
  assert (is_text item_task (VRef 5) = true) as H3 by by_computation.
  assert (member item_task (VRef 5) f_value = VStr (js " done")) as H4
    by by_computation.
  assert (hast_node 4 item_task (VRef 13) = true) as H5 by by_computation.
  split_and!; try done.
  destruct (text_after_checkbox_is_trimmed sample_phrasing) as [Hgen _].
  destruct (Hgen 4%nat item_task 13 7 [13] (VRef 4) 5 (js " done") []
              H1 H2 H3 H4) as [Hret Hshape].
  destruct (Hret H5) as (checked & clone & h' & He).
  exists checked, clone, h'. split; [exact He|].
  exact (Hshape _ _ _ He).
Defined.

(** C4.  When the first-child descent from the input finds no checkbox,
    [extractLeadingCheckbox] returns [checked = null] and the input itself
    as the clone, the heap as it was: nothing is copied.  Whenever it
    returns, [checked] is [null] exactly when the descent found no checkbox.
    In a hast node of height below the bound the descent comes to an end. *)
Theorem no_checkbox_returns_the_input (phrasing : heap → val → bool) :
  ∀ n (h : heap) node,
    (leading_checkbox phrasing n h node [] = NotFound →
     extractLeadingCheckbox phrasing n node h = Ret (VNull, node) h)
    ∧ (∀ checked clone h',
         extractLeadingCheckbox phrasing n node h = Ret (checked, clone) h' →
         (checked = VNull ↔ leading_checkbox phrasing n h node [] = NotFound))
    ∧ (hast_node n h (VRef node) = true →
       leading_checkbox phrasing n h node [] ≠ TooDeep).
Proof.
  intros n h node. split_and!.
  - apply extract_not_found.
  - intros checked clone h' He.
    pose proof (extract_cases phrasing n node h) as Hc.
    destruct (leading_checkbox phrasing n h node []) as [parents control| |].
    + destruct Hc as (spine & _ & _ & Hc). rewrite He in Hc.
      destruct Hc as (-> & _). done.
    + rewrite He in Hc. by injection Hc as -> -> ->.
    + rewrite He in Hc. done.
  - apply hast_node_search.
Qed.

Lemma no_checkbox_returns_the_input_witness :
  (leading_checkbox sample_phrasing 3 item_text_first 7 [] = NotFound
   ∧ extractLeadingCheckbox sample_phrasing 3 7 item_text_first
     = Ret (VNull, 7) item_text_first)
  ∧ (extractLeadingCheckbox sample_phrasing 3 7 item_text_first
     = Ret (VNull, 7) item_text_first
     ∧ (VNull = VNull
        ↔ leading_checkbox sample_phrasing 3 item_text_first 7 [] = NotFound))
  ∧ (hast_node 3 item_text_first (VRef 7) = true
     ∧ leading_checkbox sample_phrasing 3 item_text_first 7 [] ≠ TooDeep).
Proof.
  assert (leading_checkbox sample_phrasing 3 item_text_first 7 [] = NotFound)
    as H by by_computation.
  assert (hast_node 3 item_text_first (VRef 7) = true) as Hn
    by by_computation.
  destruct (no_checkbox_returns_the_input sample_phrasing 3%nat
              item_text_first 7) as (H1 & H2 & H3).
  pose proof (H1 H) as He.
  split_and!; [exact H|exact He|exact He|exact (H2 _ _ _ He)|exact Hn|exact (H3 Hn)].
Defined.

(** C5, as the specification states it, fails: on
    [<li><input type="checkbox"><input type="checkbox">x</li>] the extraction
    succeeds, and the extraction from the clone it returns finds the second
    checkbox: its [checked] is [false], not [null]. *)
Lemma second_extraction_finds_second_checkbox :
  ∃ clone h' clone' h'',
    extractLeadingCheckbox sample_phrasing 2 8 item_two_checkboxes
    = Ret (VBool false, clone) h'
    ∧ extractLeadingCheckbox sample_phrasing 2 clone h'
      = Ret (VBool false, clone') h''.
Proof.
  assert (match extractLeadingCheckbox sample_phrasing 2 8 item_two_checkboxes with
          | Ret (VBool false, clone) h' =>
              match extractLeadingCheckbox sample_phrasing 2 clone h' with
              | Ret (VBool false, _) _ => true
              | _ => false
              end
          | _ => false
          end = true) as H by by_computation.
  destruct (extractLeadingCheckbox sample_phrasing 2 8 item_two_checkboxes)
    as [[checked clone] h'|?| |]; try discriminate H.
  destruct checked as [| |[]| | |]; try discriminate H.
  destruct (extractLeadingCheckbox sample_phrasing 2 clone h')
    as [[checked' clone'] h''|?| |] eqn:He'; try discriminate H.
  destruct checked' as [| |[]| | |]; try discriminate H.
  by exists clone, h', clone', h''.
Qed.

(** C5, amended.  When the extraction from a hast node succeeds, the
    extraction from the returned clone returns [checked = null] and that
    clone, the heap as it was, unless a further checkbox is met: the
    exception is that the descent, continued at what followed the removed
    checkbox in its parent (once a text of white space only is dropped),
    finds a checkbox -- what followed is a checkbox, or a paragraph or a
    phrasing element at the head of which one is.  The classification is
    asked in the heap of the second call, in which every object of the
    input is as it was. *)
Theorem second_extraction_finds_nothing (phrasing : heap → val → bool) :
  ∀ n (h : heap) node p above control checked clone h',
    hast_node n h (VRef node) = true →
    leading_checkbox phrasing n h node [] = Found (p :: above) control →
    extractLeadingCheckbox phrasing n node h = Ret (checked, clone) h' →
    search_from phrasing n h' (after_first h p) [] = NotFound →
    extractLeadingCheckbox phrasing n clone h' = Ret (VNull, clone) h'.
Proof.
  intros n h node p above control checked clone h' Hn Hfound He Hafter.
  pose proof (extract_cases phrasing n node h) as Hc. rewrite Hfound, He in Hc.
  destruct Hc as (spine & Hs & Hrev & _ & Hr & Hsub). symmetry in Hrev.
  pose proof (leading_checkbox_spine phrasing _ _ _ _ _ _ Hfound)
    as (spine' & _ & Hrev' & Hlen).
  rewrite app_nil_r, <- Hrev in Hrev'.
  apply (f_equal (@rev _)) in Hrev'. rewrite !rev_involutive in Hrev'.
  injection Hrev' as <-.
  apply rev_cons_drop in Hrev as (_ & Hlast & _).
  apply extract_not_found.
  destruct (extract_hast_node phrasing _ _ _ _ _ _ Hn He) as [Hn' _].
  pose proof (hast_node_search phrasing n h' clone [] Hn') as Hdeep.
  destruct (clone_search phrasing h h' n _ clone Hr control p Hs
              (hast_node_spine phrasing n h _ _ Hs _ _ eq_refl Hn)
              Hsub Hlast n [] Hlen) as [Hnone|(m & above' & Hm)]; [done|].
  destruct (search_from_not_found phrasing n h' _ [] Hafter m above')
    as [Hnf|Hnf]; congruence.
Qed.

Lemma second_extraction_finds_nothing_witness :
  (* <li><input type="checkbox"><b>x</b></li>: an element follows *)
  (hast_node 3 item_checkbox_bold (VRef 9) = true
   ∧ leading_checkbox sample_phrasing 3 item_checkbox_bold 9 []
     = Found [9] (VRef 4)
   ∧ after_first item_checkbox_bold 9 = VRef 7
   ∧ ∃ checked clone h',
       extractLeadingCheckbox sample_phrasing 3 9 item_checkbox_bold
       = Ret (checked, clone) h'
       ∧ search_from sample_phrasing 3 h' (VRef 7) [] = NotFound
       ∧ extractLeadingCheckbox sample_phrasing 3 clone h'
         = Ret (VNull, clone) h')
  (* <li><input type="checkbox"> <a>link</a></li>: a blank text, then an
     element *)
  ∧ (hast_node 3 item_checkbox_link (VRef 10) = true
     ∧ leading_checkbox sample_phrasing 3 item_checkbox_link 10 []
       = Found [10] (VRef 4)
     ∧ after_first item_checkbox_link 10 = VRef 8
     ∧ ∃ checked clone h',
         extractLeadingCheckbox sample_phrasing 3 10 item_checkbox_link
         = Ret (checked, clone) h'
         ∧ search_from sample_phrasing 3 h' (VRef 8) [] = NotFound
         ∧ extractLeadingCheckbox sample_phrasing 3 clone h'
           = Ret (VNull, clone) h')
  (* <li><em><input type="checkbox" checked> done</em><b>!</b></li>: a
     text follows, in a wrapper *)
  ∧ (hast_node 4 item_task (VRef 13) = true
     ∧ leading_checkbox sample_phrasing 4 item_task 13 []
       = Found [7; 13] (VRef 4)
     ∧ after_first item_task 7 = VRef 5
     ∧ ∃ checked clone h',
         extractLeadingCheckbox sample_phrasing 4 13 item_task
         = Ret (checked, clone) h'
         ∧ search_from sample_phrasing 4 h' (VRef 5) [] = NotFound
         ∧ extractLeadingCheckbox sample_phrasing 4 clone h'
           = Ret (VNull, clone) h').
Proof.
  assert (hast_node 3 item_checkbox_bold (VRef 9) = true) as A1
    by by_computation.
  assert (leading_checkbox sample_phrasing 3 item_checkbox_bold 9 []
          = Found [9] (VRef 4)) as A2 by by_computation.
  assert (after_first item_checkbox_bold 9 = VRef 7) as A3 by by_computation.
  assert (match extractLeadingCheckbox sample_phrasing 3 9 item_checkbox_bold with
          | Ret _ h' =>
              match search_from sample_phrasing 3 h' (VRef 7) [] with
              | NotFound => true
              | _ => false
              end
          | _ => false
          end = true) as A4 by by_computation.
  assert (hast_node 3 item_checkbox_link (VRef 10) = true) as B1
    by by_computation.
  assert (leading_checkbox sample_phrasing 3 item_checkbox_link 10 []
          = Found [10] (VRef 4)) as B2 by by_computation.
  assert (after_first item_checkbox_link 10 = VRef 8) as B3 by by_computation.
  assert (match extractLeadingCheckbox sample_phrasing 3 10 item_checkbox_link with
          | Ret _ h' =>
              match search_from sample_phrasing 3 h' (VRef 8) [] with
              | NotFound => true
              | _ => false
              end
          | _ => false
          end = true) as B4 by by_computation.
  assert (hast_node 4 item_task (VRef 13) = true) as C1 by by_computation.
  assert (leading_checkbox sample_phrasing 4 item_task 13 []
          = Found [7; 13] (VRef 4)) as C2 by by_computation.
  assert (after_first item_task 7 = VRef 5) as C3 by by_computation.
  assert (match extractLeadingCheckbox sample_phrasing 4 13 item_task with
          | Ret _ h' =>
              match search_from sample_phrasing 4 h' (VRef 5) [] with
              | NotFound => true
              | _ => false
              end
          | _ => false
          end = true) as C4 by by_computation.
  split_and!; [exact A1|exact A2|exact A3| |exact B1|exact B2|exact B3|
              |exact C1|exact C2|exact C3|].
  - destruct (extractLeadingCheckbox sample_phrasing 3 9 item_checkbox_bold)
      as [[checked clone] h'|?| |] eqn:He; try discriminate A4.
    destruct (search_from sample_phrasing 3 h' (VRef 7) []) eqn:Hs;
      try discriminate A4.
    exists checked, clone, h'. split_and!; [reflexivity|exact Hs|].
    rewrite <- A3 in Hs.
    exact (second_extraction_finds_nothing sample_phrasing 3%nat
             item_checkbox_bold 9 9 [] (VRef 4) checked clone h' A1 A2 He Hs).
  - destruct (extractLeadingCheckbox sample_phrasing 3 10 item_checkbox_link)
      as [[checked clone] h'|?| |] eqn:He; try discriminate B4.
    destruct (search_from sample_phrasing 3 h' (VRef 8) []) eqn:Hs;
      try discriminate B4.
    exists checked, clone, h'. split_and!; [reflexivity|exact Hs|].
    rewrite <- B3 in Hs.
    exact (second_extraction_finds_nothing sample_phrasing 3%nat
             item_checkbox_link 10 10 [] (VRef 4) checked clone h' B1 B2 He Hs).
  - destruct (extractLeadingCheckbox sample_phrasing 4 13 item_task)
      as [[checked clone] h'|?| |] eqn:He; try discriminate C4.
    destruct (search_from sample_phrasing 4 h' (VRef 5) []) eqn:Hs;
      try discriminate C4.
    exists checked, clone, h'. split_and!; [reflexivity|exact Hs|].
    rewrite <- C3 in Hs.
    exact (second_extraction_finds_nothing sample_phrasing 4%nat
             item_task 13 7 [13] (VRef 4) checked clone h' C1 C2 He Hs).
Defined.

(** C6.  [spreadout] on a hast element returns [true] in each of the three
    cases of the specification: a direct child element with the paragraph
    tag, two or more direct flow children, or exactly one flow child that is
    spread itself by the same three cases.  The classification is the
    parameter [phrasing]; of it, the first case uses that a paragraph is
    flow content, not phrasing (the test of [phrasing(child)] comes before
    the test of the tag). *)
Theorem spread_cases_return_true (phrasing : heap → val → bool) :
  (∀ (h : heap) v, has_tag h v "p" = true → phrasing h v = false) →
  ∀ n k (h : heap) l,
    hast_node n h (VRef l) = true →
    is_element h (VRef l) = true →
    spread_spec phrasing k h l = true →
    spreadout phrasing n (VRef l) h = Ret true h.
Proof.
  intros Hp n k h l Hn He Hspec.
  destruct (spreadout_spec phrasing Hp n h l Hn He) as (b & -> & Hb).
  by rewrite (Hb k Hspec).
Qed.

Lemma spread_cases_return_true_witness :
  (* a direct paragraph child: <li><p>text</p></li> *)
  (hast_node 5 item_paragraph_text (VRef 6) = true
   ∧ is_element item_paragraph_text (VRef 6) = true
   ∧ spread_spec sample_phrasing 1 item_paragraph_text 6 = true
   ∧ spreadout sample_phrasing 5 (VRef 6) item_paragraph_text
     = Ret true item_paragraph_text)
  (* two flow children: <li><ul></ul><div>...</div></li> *)
  ∧ (hast_node 5 item_blocks (VRef 13) = true
     ∧ is_element item_blocks (VRef 13) = true
     ∧ spread_spec sample_phrasing 1 item_blocks 13 = true
     ∧ spreadout sample_phrasing 5 (VRef 13) item_blocks = Ret true item_blocks)
  (* one flow child that is spread: <li><div><ul></ul><p>a</p></div></li> *)
  ∧ (hast_node 5 item_blocks (VRef 11) = true
     ∧ is_element item_blocks (VRef 11) = true
     ∧ spread_spec sample_phrasing 2 item_blocks 11 = true
     ∧ spreadout sample_phrasing 5 (VRef 11) item_blocks = Ret true item_blocks).
Proof.
  assert (hast_node 5 item_paragraph_text (VRef 6) = true) as H1
    by by_computation.
  assert (is_element item_paragraph_text (VRef 6) = true) as H2
    by by_computation.
  assert (spread_spec sample_phrasing 1 item_paragraph_text 6 = true) as H3
    by by_computation.
  assert (hast_node 5 item_blocks (VRef 13) = true) as H4 by by_computation.
  assert (is_element item_blocks (VRef 13) = true) as H5 by by_computation.
  assert (spread_spec sample_phrasing 1 item_blocks 13 = true) as H6
    by by_computation.
  assert (hast_node 5 item_blocks (VRef 11) = true) as H7 by by_computation.
  assert (is_element item_blocks (VRef 11) = true) as H8 by by_computation.
  assert (spread_spec sample_phrasing 2 item_blocks 11 = true) as H9
    by by_computation.
  split_and!;
    [exact H1|exact H2|exact H3| |exact H4|exact H5|exact H6|
    |exact H7|exact H8|exact H9|].
  - exact (spread_cases_return_true sample_phrasing sample_phrasing_paragraph
             5%nat 1%nat item_paragraph_text 6 H1 H2 H3).
  - exact (spread_cases_return_true sample_phrasing sample_phrasing_paragraph
             5%nat 1%nat item_blocks 13 H4 H5 H6).
  - exact (spread_cases_return_true sample_phrasing sample_phrasing_paragraph
             5%nat 2%nat item_blocks 11 H7 H8 H9).
Defined.

(** C7.  On an element whose children are all phrasing content -- texts and
    phrasing-classified elements -- [spreadout] returns [false]; the
    children of those children are not read. *)
Theorem phrasing_children_are_not_spread (phrasing : heap → val → bool) :
  ∀ fuel (h : heap) l es,
    children_of h l = Some es →
    forallb (is_phrasing_content phrasing h) es = true →
    spreadout phrasing (S fuel) (VRef l) h = Ret false h.
Proof.
  intros fuel h l es (m & a & Hl & Hk & Ha)%children_of_Some Hall.
  cbn [spreadout]. rewrite (member_lookup h l m f_children Hl), Hk.
  simpl. rewrite Ha. by apply spread_scan_phrasing.
Qed.

Lemma phrasing_children_are_not_spread_witness :
  children_of item_phrasing 9 = Some [VRef 7; VRef 6]
  ∧ forallb (is_phrasing_content sample_phrasing item_phrasing) [VRef 7; VRef 6]
    = true
  ∧ spreadout sample_phrasing 1 (VRef 9) item_phrasing = Ret false item_phrasing.
Proof.
  assert (children_of item_phrasing 9 = Some [VRef 7; VRef 6]) as H1
    by by_computation.
  assert (forallb (is_phrasing_content sample_phrasing item_phrasing)
            [VRef 7; VRef 6] = true) as H2 by by_computation.
  split_and!; [done..|].
  exact (phrasing_children_are_not_spread sample_phrasing 0%nat item_phrasing 9
           [VRef 7; VRef 6] H1 H2).
Defined.

(** C8.  Neither function writes to an object of the input heap.  After
    [extractLeadingCheckbox], however it ends, every location of the heap
    holds the object it held: the children array of the input is the same
    array with the same entries.  [spreadout] leaves the heap as it is.  And
    the clone of a successful extraction is [rebuilt] along the spine: a new
    object and a new children array for each element of the spine, and,
    behind the first child, the very values of the original; the heap has
    grown by these objects and at most one text, and by no other. *)
Theorem input_is_never_written (phrasing : heap → val → bool) :
  ∀ fuel (h : heap) node,
    match extractLeadingCheckbox phrasing fuel node h with
    | Ret _ h' | Throw h' => ∀ l o, h !! l = Some o → h' !! l = Some o
    | _ => True
    end
    ∧ match spreadout phrasing fuel (VRef node) h with
      | Ret _ h' | Throw h' => h' = h
      | _ => True
      end
    ∧ ∀ checked clone h',
        extractLeadingCheckbox phrasing fuel node h = Ret (checked, clone) h' →
        checked ≠ VNull →
        ∃ spine control,
          on_spine phrasing h (node :: spine) control
          ∧ rebuilt h h' (node :: spine) clone
          ∧ (size (dom h') ≤ size (dom h) + 2 * length (node :: spine) + 1)%nat.
Proof.
  intros fuel h node. split_and!.
  - pose proof (extract_frame phrasing fuel node h) as Hf.
    destruct (extractLeadingCheckbox phrasing fuel node h); try done;
      intros l o Hl; by eapply lookup_weaken.
  - apply spreadout_heap.
  - intros checked clone h' He Hne.
    destruct (extract_checked phrasing _ _ _ _ _ _ He Hne)
      as (spine & control & Hfound & Hs & _ & Hr & _).
    exists spine, control. split_and!; [done..|].
    pose proof (extract_size phrasing _ _ _ _ _ _ _ _ He Hfound) as Hsize.
    by rewrite length_rev in Hsize.
Qed.

Lemma input_is_never_written_witness :
  ∃ checked clone h',
    extractLeadingCheckbox sample_phrasing 4 13 item_task = Ret (checked, clone) h'
    ∧ checked ≠ VNull
    ∧ ∃ spine control,
        on_spine sample_phrasing item_task (13 :: spine) control
        ∧ rebuilt item_task h' (13 :: spine) clone
        ∧ (size (dom h') ≤ size (dom item_task) + 2 * length (13%positive :: spine) + 1)%nat.
Proof.
  assert (match extractLeadingCheckbox sample_phrasing 4 13 item_task with
          | Ret (VBool _, _) _ => true
          | _ => false
          end = true) as H by by_computation.
  destruct (extractLeadingCheckbox sample_phrasing 4 13 item_task)
    as [[checked clone] h'|?| |] eqn:He; try discriminate H.
  destruct checked as [| |b| | |]; try discriminate H.
  assert (VBool b ≠ VNull) as Hne by discriminate.
  exists (VBool b), clone, h'. split_and!; [reflexivity|exact Hne|].
  exact (proj2 (proj2 (input_is_never_written sample_phrasing 4%nat item_task 13))
           (VBool b) clone h' He Hne).
Defined.

(** C9.  The specification has [li] run its steps and return a list item for
    every element.  On [<li><input type="checkbox"></li>] it returns none:
    the first step, the extraction, throws the TypeError of line 108, and
    [li] ends with it, no method of [state] called. *)
Theorem li_throws_on_lone_checkbox :
  ∀ state fuel,
    li sample_phrasing state (S fuel) 6 (item_unchecked, [])
    = Throw (<[7 := OArray []]> item_unchecked, []).
Proof.
  intros state fuel. apply li_throws. by_computation.
Qed.



(* ===================================================================== *)
(** * Further properties of the handler *)
(* ===================================================================== *)

(** X1.  When the descent finds a checkbox, [extractLeadingCheckbox] either
    throws or returns, and which of the two is decided by the input alone:
    it throws exactly when [extraction_throws] holds -- one of the parents
    has no [children] array to slice, or what follows the checkbox in its
    parent is nothing, [undefined], [null], or a text whose [value] is no
    string -- and the input heap is then still part of the heap it leaves.
    In every other case it returns, and [checked] is the boolean
    [Boolean(control.properties.checked)] of the checkbox found. *)
Theorem extraction_throws_exactly (phrasing : heap → val → bool) :
  ∀ n (h : heap) node parents control,
    leading_checkbox phrasing n h node [] = Found parents control →
    if extraction_throws h parents
    then ∃ h', extractLeadingCheckbox phrasing n node h = Throw h' ∧ h ⊆ h'
    else ∃ clone h',
           extractLeadingCheckbox phrasing n node h
           = Ret (VBool (truthy (member h (member h control f_properties)
                                         f_checked)), clone) h'.
Proof.
  intros n h node parents control Hfound.
  pose proof (extract_outcome phrasing n h node parents control Hfound) as Ho.
  pose proof (extract_frame phrasing n node h) as Hf.
  destruct (extractLeadingCheckbox phrasing n node h)
    as [[checked clone] h'|h'| |]; try done.
  - destruct Ho as [-> ->]. eauto.
  - rewrite Ho. eauto.
Qed.

Lemma extraction_throws_exactly_witness :
  (* nothing follows the checkbox *)
  (leading_checkbox sample_phrasing 2 item_unchecked 6 [] = Found [6] (VRef 4)
   ∧ ∃ h', extractLeadingCheckbox sample_phrasing 2 6 item_unchecked = Throw h'
           ∧ item_unchecked ⊆ h')
  (* a text without a value follows it *)
  ∧ (leading_checkbox sample_phrasing 2 item_text_without_value 7 []
     = Found [7] (VRef 4)
     ∧ ∃ h', extractLeadingCheckbox sample_phrasing 2 7 item_text_without_value
             = Throw h'
             ∧ item_text_without_value ⊆ h')
  (* a text follows it, and the checkbox is checked *)
  ∧ (leading_checkbox sample_phrasing 4 item_task 13 [] = Found [7; 13] (VRef 4)
     ∧ ∃ clone h', extractLeadingCheckbox sample_phrasing 4 13 item_task
                   = Ret (VBool true, clone) h').
Proof.
  assert (leading_checkbox sample_phrasing 2 item_unchecked 6 []
          = Found [6] (VRef 4)) as H1 by by_computation.
  assert (extraction_throws item_unchecked [6] = true) as T1 by by_computation.
  assert (leading_checkbox sample_phrasing 2 item_text_without_value 7 []
          = Found [7] (VRef 4)) as H2 by by_computation.
  assert (extraction_throws item_text_without_value [7] = true) as T2
    by by_computation.
  assert (leading_checkbox sample_phrasing 4 item_task 13 []
          = Found [7; 13] (VRef 4)) as H3 by by_computation.
  assert (extraction_throws item_task [7; 13] = false) as T3 by by_computation.
  assert (truthy (member item_task (member item_task (VRef 4) f_properties)
                         f_checked) = true) as V3 by by_computation.
  pose proof (extraction_throws_exactly sample_phrasing 2%nat item_unchecked 6
                [6] (VRef 4) H1) as X1.
  rewrite T1 in X1.
  pose proof (extraction_throws_exactly sample_phrasing 2%nat
                item_text_without_value 7 [7] (VRef 4) H2) as X2.
  rewrite T2 in X2.
  pose proof (extraction_throws_exactly sample_phrasing 4%nat item_task 13
                [7; 13] (VRef 4) H3) as X3.
  rewrite T3, V3 in X3.
  split_and!; [exact H1|exact X1|exact H2|exact X2|exact H3|exact X3].
Defined.

(** X2.  On a hast node in which the descent finds a checkbox,
    [extractLeadingCheckbox] throws when the checkbox is the only child of
    its parent, and only then: when anything follows the checkbox, it
    returns a boolean [checked] and a clone. *)
Theorem hast_extraction_throws_only_on_lone_checkbox
    (phrasing : heap → val → bool) :
  ∀ n (h : heap) node p above control,
    hast_node n h (VRef node) = true →
    leading_checkbox phrasing n h node [] = Found (p :: above) control →
    ∃ rest,
      children_of h p = Some (control :: rest)
      ∧ match rest with
        | [] => ∃ h', extractLeadingCheckbox phrasing n node h = Throw h'
        | _ :: _ =>
            ∃ checked clone h',
              extractLeadingCheckbox phrasing n node h
              = Ret (VBool checked, clone) h'
        end.
Proof.
  intros n h node p above control Hn Hfound.
  destruct (hast_extraction_throws phrasing n h node p above control Hn Hfound)
    as (rest & Hes & Ht).
  exists rest. split; [done|].
  pose proof (extract_outcome phrasing n h node _ control Hfound) as Ho.
  destruct (extractLeadingCheckbox phrasing n node h)
    as [[checked clone] h'|h'| |]; try done.
  - destruct Ho as [Hno ->]. rewrite Hno in Ht. destruct rest; [done|eauto].
  - rewrite Ho in Ht. destruct rest; [eauto|done].
Qed.

Lemma hast_extraction_throws_only_on_lone_checkbox_witness :
  (hast_node 4 item_task (VRef 13) = true
   ∧ leading_checkbox sample_phrasing 4 item_task 13 [] = Found [7; 13] (VRef 4)
   ∧ children_of item_task 7 = Some [VRef 4; VRef 5]
   ∧ ∃ checked clone h',
       extractLeadingCheckbox sample_phrasing 4 13 item_task
       = Ret (VBool checked, clone) h')
  ∧ (hast_node 2 item_checked (VRef 6) = true
     ∧ leading_checkbox sample_phrasing 2 item_checked 6 [] = Found [6] (VRef 4)
     ∧ children_of item_checked 6 = Some [VRef 4]
     ∧ ∃ h', extractLeadingCheckbox sample_phrasing 2 6 item_checked = Throw h').
Proof.
  assert (hast_node 4 item_task (VRef 13) = true) as H1 by by_computation.
  assert (leading_checkbox sample_phrasing 4 item_task 13 []
          = Found [7; 13] (VRef 4)) as H2 by by_computation.
  assert (children_of item_task 7 = Some [VRef 4; VRef 5]) as H3
    by by_computation.
  assert (hast_node 2 item_checked (VRef 6) = true) as H4 by by_computation.
  assert (leading_checkbox sample_phrasing 2 item_checked 6 []
          = Found [6] (VRef 4)) as H5 by by_computation.
  assert (children_of item_checked 6 = Some [VRef 4]) as H6 by by_computation.
  destruct (hast_extraction_throws_only_on_lone_checkbox sample_phrasing 4%nat
              item_task 13 7 [13] (VRef 4) H1 H2) as (rest1 & Hes1 & X1).
  rewrite H3 in Hes1. injection Hes1 as <-.
  destruct (hast_extraction_throws_only_on_lone_checkbox sample_phrasing 2%nat
              item_checked 6 6 [] (VRef 4) H4 H5) as (rest2 & Hes2 & X2).
  rewrite H6 in Hes2. injection Hes2 as <-.
  split_and!; [exact H1|exact H2|exact H3|exact X1
              |exact H4|exact H5|exact H6|exact X2].
Defined.

(** X3.  A copy made by the extraction is a shallow copy: along the spine,
    the element reached from the clone by [k] first-child steps has, for
    every key but [children], the very value that the element reached from
    the input by [k] steps has under that key ([tagName], [properties],
    [position], ...): an object under such a key, as [properties], is shared
    by the copy and its original, not copied. *)
Theorem clone_keeps_other_properties (phrasing : heap → val → bool) :
  ∀ fuel (h : heap) node checked clone h',
    extractLeadingCheckbox phrasing fuel node h = Ret (checked, clone) h' →
    checked ≠ VNull →
    ∃ parents control,
      leading_checkbox phrasing fuel h node [] = Found parents control
      ∧ ∀ k, (k < length parents)%nat →
          ∃ p q, descendant_at h k node = Some p
                 ∧ descendant_at h' k clone = Some q
                 ∧ ∀ key, key ≠ f_children →
                     member h' (VRef q) key = member h (VRef p) key.
Proof.
  intros fuel h node checked clone h' He Hne.
  destruct (extract_checked phrasing _ _ _ _ _ _ He Hne)
    as (spine & control & Hfound & Hs & _ & Hr & _).
  exists (rev (node :: spine)), control. split; [done|].
  intros k Hk. rewrite length_rev in Hk.
  destruct (lookup_lt_is_Some_2 (node :: spine) k Hk) as [p Hp].
  destruct (on_spine_descendant phrasing h _ _ Hs k p Hp) as (r & [= <-] & Hd).
  destruct (rebuilt_members h h' _ clone Hr k p Hp) as (q & Hq & Hsame).
  by exists p, q.
Qed.

Lemma clone_keeps_other_properties_witness :
  ∃ checked clone h',
    extractLeadingCheckbox sample_phrasing 4 13 item_task
    = Ret (checked, clone) h'
    ∧ checked ≠ VNull
    ∧ member h' (VRef clone) f_properties = VRef 12
    ∧ member h' (VRef clone) f_tagName = VStr (js "li").
Proof.
  assert (match extractLeadingCheckbox sample_phrasing 4 13 item_task with
          | Ret (VBool _, _) _ => true
          | _ => false
          end = true) as H by by_computation.
  assert (leading_checkbox sample_phrasing 4 item_task 13 []
          = Found [7; 13] (VRef 4)) as Hfound by by_computation.
  assert (member item_task (VRef 13) f_properties = VRef 12) as M1
    by by_computation.
  assert (member item_task (VRef 13) f_tagName = VStr (js "li")) as M2
    by by_computation.
  assert (f_properties ≠ f_children) as N1 by (vm_compute; discriminate).
  assert (f_tagName ≠ f_children) as N2 by (vm_compute; discriminate).
  destruct (extractLeadingCheckbox sample_phrasing 4 13 item_task)
    as [[checked clone] h'|?| |] eqn:He; try discriminate H.
  destruct checked as [| |b| | |]; try discriminate H.
  assert (VBool b ≠ VNull) as Hne by discriminate.
  destruct (clone_keeps_other_properties sample_phrasing 4%nat item_task 13
              (VBool b) clone h' He Hne) as (parents & control & Hf & Hall).
  rewrite Hfound in Hf. injection Hf as <- <-.
  destruct (Hall 0%nat ltac:(simpl; lia)) as (p & q & [= <-] & [= <-] & Hsame).
  exists (VBool b), clone, h'.
  split_and!; [reflexivity|exact Hne| |].
  - rewrite (Hsame f_properties N1). exact M1.
  - rewrite (Hsame f_tagName N2). exact M2.
Defined.

(** X4.  Whenever [spreadout] returns, on any heap, the heap is as it was;
    when its answer is [true], the node is in one of the three cases: a
    direct child element with the paragraph tag, two or more direct flow
    children, or one flow child that is spread itself.  Given that the
    classification does not take the paragraph tag as phrasing, the answer
    is [true] in these cases and [false] in every other. *)
Theorem spreadout_answers_by_the_three_cases (phrasing : heap → val → bool) :
  ∀ n (h : heap) l b h',
    spreadout phrasing n (VRef l) h = Ret b h' →
    h' = h
    ∧ (b = true → spread_spec phrasing n h l = true)
    ∧ ((∀ (h : heap) v, has_tag h v "p" = true → phrasing h v = false) →
       b = spread_spec phrasing n h l).
Proof.
  intros n h l b h' Hs. split_and!.
  - pose proof (spreadout_heap phrasing n (VRef l) h) as Hh.
    by rewrite Hs in Hh.
  - intros ->. by eapply spreadout_true.
  - intros Hp. destruct b.
    + symmetry. by eapply spreadout_true.
    + symmetry. by eapply spreadout_false.
Qed.

Lemma spreadout_answers_by_the_three_cases_witness :
  (* <li><div><ul></ul><p>a</p></div></li> *)
  (spreadout sample_phrasing 5 (VRef 11) item_blocks = Ret true item_blocks
   ∧ true = spread_spec sample_phrasing 5 item_blocks 11)
  (* <li><div><ul></ul><p>a</p></div></li>, the list in it *)
  ∧ (spreadout sample_phrasing 5 (VRef 6) item_blocks = Ret false item_blocks
     ∧ false = spread_spec sample_phrasing 5 item_blocks 6).
Proof.
  assert (spreadout sample_phrasing 5 (VRef 11) item_blocks
          = Ret true item_blocks) as H1 by by_computation.
  assert (spreadout sample_phrasing 5 (VRef 6) item_blocks
          = Ret false item_blocks) as H2 by by_computation.
  split_and!; [exact H1| |exact H2|].
  - exact (proj2 (proj2 (spreadout_answers_by_the_three_cases sample_phrasing
                           5%nat item_blocks 11 true item_blocks H1))
             sample_phrasing_paragraph).
  - exact (proj2 (proj2 (spreadout_answers_by_the_three_cases sample_phrasing
                           5%nat item_blocks 6 false item_blocks H2))
             sample_phrasing_paragraph).
Defined.

(** X5.  On a hast element, [spreadout] returns a boolean: it does not
    throw, and as many nested calls as the tree is high are enough. *)
Theorem spreadout_returns_on_hast_elements (phrasing : heap → val → bool) :
  ∀ n (h : heap) l,
    hast_node n h (VRef l) = true →
    is_element h (VRef l) = true →
    ∃ b, spreadout phrasing n (VRef l) h = Ret b h.
Proof. intros n h l. apply spreadout_returns. Qed.

Lemma spreadout_returns_on_hast_elements_witness :
  hast_node 4 item_blocks (VRef 13) = true
  ∧ is_element item_blocks (VRef 13) = true
  ∧ ∃ b, spreadout sample_phrasing 4 (VRef 13) item_blocks = Ret b item_blocks.
Proof.
  assert (hast_node 4 item_blocks (VRef 13) = true) as H1 by by_computation.
  assert (is_element item_blocks (VRef 13) = true) as H2 by by_computation.
  split_and!; [exact H1|exact H2|].
  exact (spreadout_returns_on_hast_elements sample_phrasing 4%nat item_blocks 13
           H1 H2).
Defined.

(** X6.  What [extractLeadingCheckbox] returns for a hast node is a hast
    node again, of no greater height, and an element when the input is one:
    [spreadout] and the conversion of the children are given a well-formed
    tree. *)
Theorem clone_of_hast_node_is_hast_node (phrasing : heap → val → bool) :
  ∀ n (h : heap) node checked clone h',
    hast_node n h (VRef node) = true →
    extractLeadingCheckbox phrasing n node h = Ret (checked, clone) h' →
    hast_node n h' (VRef clone) = true
    ∧ is_element h' (VRef clone) = is_element h (VRef node).
Proof. intros n h node checked clone h'. apply extract_hast_node. Qed.

Lemma clone_of_hast_node_is_hast_node_witness :
  hast_node 4 item_task (VRef 13) = true
  ∧ ∃ checked clone h',
      extractLeadingCheckbox sample_phrasing 4 13 item_task
      = Ret (checked, clone) h'
      ∧ hast_node 4 h' (VRef clone) = true
      ∧ is_element h' (VRef clone) = is_element item_task (VRef 13).
Proof.
  assert (hast_node 4 item_task (VRef 13) = true) as H1 by by_computation.
  assert (match extractLeadingCheckbox sample_phrasing 4 13 item_task with
          | Ret _ _ => true
          | _ => false
          end = true) as H by by_computation.
  destruct (extractLeadingCheckbox sample_phrasing 4 13 item_task)
    as [[checked clone] h'|?| |] eqn:He; try discriminate H.
  split; [exact H1|].
  exists checked, clone, h'. split; [reflexivity|].
  exact (clone_of_hast_node_is_hast_node sample_phrasing 4%nat item_task 13
           checked clone h' H1 He).
Defined.

(** X7.  [li] on a hast element on which the extraction returns: [spreadout]
    returns on the clone, and when the three methods of [state] return, [li]
    returns a new object, the list item
    [{type: 'listItem', spread, checked, children}] with the answer of
    [spreadout] on the clone, the [checked] extracted and the result of
    [toFlow]; [all] was called on the clone, [toFlow] on what [all]
    returned, and [patch] once, with the clone and the list item, in this
    order and with no other call. *)
Theorem li_runs_its_steps (phrasing : heap → val → bool) (state : State) :
  ∀ n (h : heap) node calls checked clone h1,
    hast_node n h (VRef node) = true →
    is_element h (VRef node) = true →
    extractLeadingCheckbox phrasing n node h = Ret (checked, clone) h1 →
    ∃ spread,
      spreadout phrasing n (VRef clone) h1 = Ret spread h1
      ∧ ∀ nodes h2 children h3 h4,
          all state clone h1 = Ret nodes h2 →
          toFlow state nodes h2 = Ret children h3 →
          patch state clone (fresh (dom h3))
            (<[fresh (dom h3) := listItem spread checked children]> h3)
          = Ret tt h4 →
          li phrasing state n node (h, calls)
          = Ret (fresh (dom h3))
                (h4, (calls ++ [CallAll clone; CallToFlow nodes;
                                CallPatch clone (fresh (dom h3))])%list).
Proof. intros n h node calls checked clone h1. apply li_on_hast_element. Qed.

Lemma li_runs_its_steps_witness :
  hast_node 4 item_task (VRef 13) = true
  ∧ is_element item_task (VRef 13) = true
  ∧ ∃ checked clone h1 spread result,
      extractLeadingCheckbox sample_phrasing 4 13 item_task
      = Ret (checked, clone) h1
      ∧ spreadout sample_phrasing 4 (VRef clone) h1 = Ret spread h1
      ∧ li sample_phrasing sample_state 4 13 (item_task, [])
        = Ret result
              (<[result := listItem spread checked
                             (member h1 (VRef clone) f_children)]> h1,
               [CallAll clone;
                CallToFlow (member h1 (VRef clone) f_children);
                CallPatch clone result]).
Proof.
  assert (hast_node 4 item_task (VRef 13) = true) as H1 by by_computation.
  assert (is_element item_task (VRef 13) = true) as H2 by by_computation.
  assert (match extractLeadingCheckbox sample_phrasing 4 13 item_task with
          | Ret _ _ => true
          | _ => false
          end = true) as H by by_computation.
  destruct (extractLeadingCheckbox sample_phrasing 4 13 item_task)
    as [[checked clone] h1|?| |] eqn:He; try discriminate H.
  split_and!; [exact H1|exact H2|].
  destruct (li_runs_its_steps sample_phrasing sample_state 4%nat item_task 13 []
              checked clone h1 H1 H2 He) as (spread & Hs & Hli).
  exists checked, clone, h1, spread, (fresh (dom h1)).
  split_and!; [reflexivity|exact Hs|].
  exact (Hli _ h1 _ h1 _ eq_refl eq_refl eq_refl).
Defined.

(** X8.  [li] on a hast element in which the descent finds no checkbox
    copies nothing: [spreadout], [state.all] and [state.patch] are given the
    input node itself, and the list item has [checked: null]. *)
Theorem li_without_checkbox (phrasing : heap → val → bool) (state : State) :
  ∀ n (h : heap) node calls,
    hast_node n h (VRef node) = true →
    is_element h (VRef node) = true →
    leading_checkbox phrasing n h node [] = NotFound →
    ∃ spread,
      spreadout phrasing n (VRef node) h = Ret spread h
      ∧ ∀ nodes h2 children h3 h4,
          all state node h = Ret nodes h2 →
          toFlow state nodes h2 = Ret children h3 →
          patch state node (fresh (dom h3))
            (<[fresh (dom h3) := listItem spread VNull children]> h3)
          = Ret tt h4 →
          li phrasing state n node (h, calls)
          = Ret (fresh (dom h3))
                (h4, (calls ++ [CallAll node; CallToFlow nodes;
                                CallPatch node (fresh (dom h3))])%list).
Proof.
  intros n h node calls Hn Hel Hnone.
  destruct (spreadout_returns phrasing n h node Hn Hel) as [spread Hs].
  exists spread. split; [done|].
  intros nodes h2 children h3 h4 Ha Hf Hp.
  eapply li_steps; eauto. by apply extract_not_found.
Qed.

Lemma li_without_checkbox_witness :
  hast_node 3 item_text_first (VRef 7) = true
  ∧ is_element item_text_first (VRef 7) = true
  ∧ leading_checkbox sample_phrasing 3 item_text_first 7 [] = NotFound
  ∧ ∃ spread result,
      li sample_phrasing sample_state 3 7 (item_text_first, [])
      = Ret result
            (<[result := listItem spread VNull (VRef 6)]> item_text_first,
             [CallAll 7; CallToFlow (VRef 6); CallPatch 7 result]).
Proof.
  assert (hast_node 3 item_text_first (VRef 7) = true) as H1 by by_computation.
  assert (is_element item_text_first (VRef 7) = true) as H2 by by_computation.
  assert (leading_checkbox sample_phrasing 3 item_text_first 7 [] = NotFound)
    as H3 by by_computation.
  assert (member item_text_first (VRef 7) f_children = VRef 6) as M
    by by_computation.
  split_and!; [exact H1|exact H2|exact H3|].
  destruct (li_without_checkbox sample_phrasing sample_state 3%nat
              item_text_first 7 [] H1 H2 H3) as (spread & Hs & Hli).
  exists spread, (fresh (dom item_text_first)).
  rewrite <- M.
  exact (Hli _ item_text_first _ item_text_first _ eq_refl eq_refl eq_refl).
Defined.

(** X9.  In each of the cases in which the extraction throws, [li] throws
    before it calls a method of [state]: the log of calls is as it was, no
    list item is made, and the objects of the input heap are as they
    were. *)
Theorem li_throws_before_any_call (phrasing : heap → val → bool)
    (state : State) :
  ∀ n (h : heap) node calls parents control,
    leading_checkbox phrasing n h node [] = Found parents control →
    extraction_throws h parents = true →
    ∃ h', li phrasing state n node (h, calls) = Throw (h', calls) ∧ h ⊆ h'.
Proof.
  intros n h node calls parents control Hfound Ht.
  pose proof (extract_outcome phrasing n h node parents control Hfound) as Ho.
  pose proof (extract_frame phrasing n node h) as Hf.
  destruct (extractLeadingCheckbox phrasing n node h)
    as [[checked clone] h'|h'| |] eqn:He; try done.
  - destruct Ho as [Hno _]. congruence.
  - exists h'. split; [|done]. by apply li_throws.
Qed.

Lemma li_throws_before_any_call_witness :
  leading_checkbox sample_phrasing 2 item_text_without_value 7 []
  = Found [7] (VRef 4)
  ∧ extraction_throws item_text_without_value [7] = true
  ∧ ∃ h', li sample_phrasing sample_state 2 7 (item_text_without_value, [])
          = Throw (h', [])
          ∧ item_text_without_value ⊆ h'.
Proof.
  assert (leading_checkbox sample_phrasing 2 item_text_without_value 7 []
          = Found [7] (VRef 4)) as H1 by by_computation.
  assert (extraction_throws item_text_without_value [7] = true) as H2
    by by_computation.
  split_and!; [exact H1|exact H2|].
  exact (li_throws_before_any_call sample_phrasing sample_state 2%nat
           item_text_without_value 7 [] [7] (VRef 4) H1 H2).
Defined.

(** X10.  A task item whose checkbox is inside a paragraph that is the first
    child of the item comes out spread: when the first child of the input is
    an element with the paragraph tag and the extraction returns a
    [checked] that is not [null], [spreadout] answers [true] on the clone,
    the classification not taking the paragraph tag as phrasing. *)
Theorem checkbox_in_paragraph_is_spread (phrasing : heap → val → bool) :
  (∀ (h : heap) v, has_tag h v "p" = true → phrasing h v = false) →
  ∀ n m (h : heap) node w checked clone h',
    first_child h node = VRef w →
    is_element h (VRef w) = true →
    has_tag h (VRef w) "p" = true →
    extractLeadingCheckbox phrasing n node h = Ret (checked, clone) h' →
    checked ≠ VNull →
    spreadout phrasing (S m) (VRef clone) h' = Ret true h'.
Proof.
  intros Hpar n m h node w checked clone h' Hfc Hel Hp He Hne.
  destruct (extract_checked phrasing _ _ _ _ _ _ He Hne)
    as (spine & control & _ & Hs & _ & Hr & _).
  inversion Hs as [? ? Hfc' Hcb|? w' spine' ? Hfc' Hcb Hw Hs']; subst.
  { exfalso. rewrite Hfc in Hcb. unfold is_checkbox in Hcb.
    rewrite !andb_true_iff in Hcb. destruct Hcb as [[[_ Hinput] _] _].
    unfold has_tag, is_str in Hp, Hinput.
    apply bool_decide_eq_true in Hp, Hinput. rewrite Hp in Hinput.
    vm_compute in Hinput. discriminate Hinput. }
  assert (w' = w) as -> by congruence.
  inversion Hr as [|? ? ? es ? qw a Hrw Hes Hq Ha Hq' Ha']; subst.
  destruct (rebuilt_fields _ _ _ _ Hrw) as (? & aw & [= <-] & Hqw & _).
  assert (∀ key, key ≠ f_children →
          member h' (VRef qw) key = member h (VRef w) key) as Hsame.
  { intros key Hk. rewrite (member_lookup h' qw _ key Hqw).
    by rewrite lookup_insert_ne. }
  assert (f_type ≠ f_children) as N1 by (vm_compute; discriminate).
  assert (f_tagName ≠ f_children) as N2 by (vm_compute; discriminate).
  assert (has_tag h' (VRef qw) "p" = true) as Hp'.
  { unfold has_tag. by rewrite (Hsame _ N2). }
  assert (is_flow phrasing h' (VRef qw) = true) as Hflow.
  { unfold is_flow, is_element. rewrite (Hsame _ N1).
    unfold is_element in Hel. by rewrite Hel, (Hpar _ _ Hp'). }
  cbn [spreadout].
  rewrite (member_lookup h' clone _ f_children Hq'), lookup_insert_eq.
  cbn [default from_option id]. rewrite Ha'.
  cbn [spread_scan]. unfold bind at 1.
  by rewrite spread_step_object, Hflow, Hp'.
Qed.

Lemma checkbox_in_paragraph_is_spread_witness :
  first_child item_paragraph 9 = VRef 7
  ∧ is_element item_paragraph (VRef 7) = true
  ∧ has_tag item_paragraph (VRef 7) "p" = true
  ∧ ∃ checked clone h',
      extractLeadingCheckbox sample_phrasing 2 9 item_paragraph
      = Ret (checked, clone) h'
      ∧ checked ≠ VNull
      ∧ spreadout sample_phrasing 1 (VRef clone) h' = Ret true h'.
Proof.
  assert (first_child item_paragraph 9 = VRef 7) as H1 by by_computation.
  assert (is_element item_paragraph (VRef 7) = true) as H2 by by_computation.
  assert (has_tag item_paragraph (VRef 7) "p" = true) as H3 by by_computation.
  assert (match extractLeadingCheckbox sample_phrasing 2 9 item_paragraph with
          | Ret (VBool _, _) _ => true
          | _ => false
          end = true) as H by by_computation.
  destruct (extractLeadingCheckbox sample_phrasing 2 9 item_paragraph)
    as [[checked clone] h'|?| |] eqn:He; try discriminate H.
  destruct checked as [| |b| | |]; try discriminate H.
  assert (VBool b ≠ VNull) as Hne by discriminate.
  split_and!; [exact H1|exact H2|exact H3|].
  exists (VBool b), clone, h'. split_and!; [reflexivity|exact Hne|].
  exact (checkbox_in_paragraph_is_spread sample_phrasing
           sample_phrasing_paragraph 2%nat 0%nat item_paragraph 9 7 (VBool b)
           clone h' H1 H2 H3 He Hne).
Defined.

(** X11.  On an item whose [children] is an empty array, nothing is copied
    and nothing throws: the extraction returns the input with
    [checked: null], [spreadout] answers [false], and [li] returns the list
    item [{type: 'listItem', spread: false, checked: null, children}] when
    the methods of [state] return, whatever the classification. *)
Theorem li_on_empty_item (phrasing : heap → val → bool) (state : State) :
  ∀ fuel (h : heap) node calls nodes h2 children h3 h4,
    children_of h node = Some [] →
    all state node h = Ret nodes h2 →
    toFlow state nodes h2 = Ret children h3 →
    patch state node (fresh (dom h3))
      (<[fresh (dom h3) := listItem false VNull children]> h3) = Ret tt h4 →
    extractLeadingCheckbox phrasing (S fuel) node h = Ret (VNull, node) h
    ∧ spreadout phrasing (S fuel) (VRef node) h = Ret false h
    ∧ li phrasing state (S fuel) node (h, calls)
      = Ret (fresh (dom h3))
            (h4, (calls ++ [CallAll node; CallToFlow nodes;
                            CallPatch node (fresh (dom h3))])%list).
Proof.
  intros fuel h node calls nodes h2 children h3 h4 Hes Ha Hf Hp.
  apply children_of_Some in Hes as (m & a & Hnode & Hk & Harr).
  assert (member h (VRef node) f_children = VRef a) as Hm.
  { by rewrite (member_lookup h node m f_children Hnode), Hk. }
  assert (extractLeadingCheckbox phrasing (S fuel) node h = Ret (VNull, node) h)
    as He.
  { apply extract_not_found. cbn [leading_checkbox].
    unfold first_child. rewrite Hm. cbn [truthy]. unfold index0. rewrite Harr.
    done. }
  assert (spreadout phrasing (S fuel) (VRef node) h = Ret false h) as Hs.
  { cbn [spreadout]. by rewrite Hm, Harr. }
  split_and!; [done..|]. by eapply li_steps.
Qed.

Lemma li_on_empty_item_witness :
  children_of item_empty 3 = Some []
  ∧ ∃ result,
      li sample_phrasing sample_state 1 3 (item_empty, [])
      = Ret result
            (<[result := listItem false VNull (VRef 2)]> item_empty,
             [CallAll 3; CallToFlow (VRef 2); CallPatch 3 result]).
Proof.
  assert (children_of item_empty 3 = Some []) as H1 by by_computation.
  assert (member item_empty (VRef 3) f_children = VRef 2) as M
    by by_computation.
  split; [exact H1|].
  exists (fresh (dom item_empty)). rewrite <- M.
  exact (proj2 (proj2 (li_on_empty_item sample_phrasing sample_state 0%nat
                         item_empty 3 [] _ item_empty _ item_empty _
                         H1 eq_refl eq_refl eq_refl))).
Defined.
